(** * firedrake_ts.snes_solver: problem validation and solve orchestration

    A shallow embedding of [firedrake_ts/snes_solver.py]:
    - [check_pde_args], [is_form_consistent] and the constructor of
      [NonlinearVariationalProblem] as functions into an error type;
    - [NonlinearVariationalSolver.solve] as a computation over an explicit
      world (engine state, field data, work vector, flags) that also
      records every call it makes to its collaborators, in order.

    Python objects reaching the validation code are dynamically typed, so
    they are embedded as a small universe [pyobj]; exceptions keep their
    Python class and message. *)

From Stdlib Require Import List ZArith Bool String Lia.
Import ListNotations.
Local Open Scope string_scope.

(** ** Exceptions and fallible results *)

Inductive exn : Type :=
| TypeError (msg : string)
| ValueError (msg : string)
| AttributeError (msg : string)
| ConvergenceError (reason : Z)
| ExternalError (code : Z).

Inductive result (A : Type) : Type :=
| Ok (a : A)
| Raise (e : exn).
Arguments Ok {A} a.
Arguments Raise {A} e.

Definition rbind {A B} (r : result A) (k : A -> result B) : result B :=
  match r with
  | Ok a => k a
  | Raise e => Raise e
  end.

Declare Scope result_scope.
Delimit Scope result_scope with result.
Notation "x <- r ;; k" := (rbind r (fun x => k))
  (at level 61, r at next level, right associativity) : result_scope.
Notation "r ;; k" := (rbind r (fun _ => k))
  (at level 61, right associativity) : result_scope.

(** The error kinds of the specification, read on the Python exceptions the
    code raises: [TypeError] for a value of the wrong kind, [ValueError] for
    a form of the wrong arity, and the [TypeError] with the style message for
    a style mismatch. *)
Definition is_TypeError (e : exn) : bool :=
  match e with TypeError _ => true | _ => false end.

Definition is_ValueError (e : exn) : bool :=
  match e with ValueError _ => true | _ => false end.

Definition TypeKind {A} (r : result A) : Prop :=
  exists msg, r = Raise (TypeError msg).

Definition ArityKind {A} (r : result A) : Prop :=
  exists msg, r = Raise (ValueError msg).

Definition style_mismatch_msg : string :=
  "Form style mismatch: some forms are given in 'F == 0' style, but others are given in 'A == b' style.".

Definition StyleMismatchKind {A} (r : result A) : Prop :=
  r = Raise (TypeError style_mismatch_msg).

(** ** Symbolic objects *)

(** Identity of a PETSc DM (the discretization context of a function space). *)
Definition DM := nat.

(** Identity of an MPI communicator. *)
Definition Comm := nat.

Record FunctionSpace : Type := {
  fs_id : nat;
  fs_dm : DM;          (* V.dm *)
  fs_comm : Comm       (* V.mesh()._comm *)
}.

Record Coefficient : Type := {
  coeff_id : nat;
  coeff_function_space : FunctionSpace   (* c.function_space() *)
}.

Record Argument : Type := {
  arg_number : nat;
  arg_function_space : FunctionSpace
}.

(** A [ufl.BaseForm] or a Slate tensor: what [check_pde_args] and [solve]
    read of it are [arguments()] and [coefficients()]; a form that is also a
    field (a Cofunction) has a data carrier [.dat], named like that of a
    [Function]. *)
Record Form : Type := {
  arguments : list Argument;
  coefficients : list Coefficient;
  form_dat : option nat
}.

(** A [firedrake.function.Function]: a coefficient whose numeric contents
    live in the world's store under [fn_id]. *)
Record Function : Type := {
  fn_id : nat;
  function_space : FunctionSpace
}.

Inductive pyobj : Type :=
| PyNone
| PyForm (f : Form)                          (* BaseForm or Slate TensorBase *)
| PyFunction (fn : Function)
| PyVector (fn : Function)                   (* firedrake Vector wrapping a Function *)
| PyOther (type_name : string) (truthy : bool)
| PyCarrier (type_name : string) (dat_id : nat).
    (* an object of any other class that has a [.dat] attribute *)

(** [type(o).__name__] *)
Definition py_type_name (o : pyobj) : string :=
  match o with
  | PyNone => "NoneType"
  | PyForm _ => "Form"
  | PyFunction _ => "Function"
  | PyVector _ => "Vector"
  | PyOther n _ => n
  | PyCarrier n _ => n
  end.

(** Truth value of an object, as [or] tests it. *)
Definition py_truthy (o : pyobj) : bool :=
  match o with
  | PyNone => false
  | PyOther _ t => t
  | _ => true
  end.

(** [o is None] *)
Definition is_None (o : pyobj) : bool :=
  match o with PyNone => true | _ => false end.

(** [isinstance(o, (ufl.BaseForm, slate.slate.TensorBase))] *)
Definition is_BaseForm (o : pyobj) : bool :=
  match o with PyForm _ => true | _ => false end.

(** [len(o.arguments())]; a non-form has no such attribute. *)
Definition py_arity (o : pyobj) : result nat :=
  match o with
  | PyForm f => Ok (List.length (arguments f))
  | _ => Raise (AttributeError
           ("'" ++ py_type_name o ++ "' object has no attribute 'arguments'"))
  end.

(** ** Boundary conditions *)

Record DirichletBC : Type := { dbc_id : nat }.

(** A boundary condition is a [DirichletBC] or an object carrying a style
    flag [is_linear] (an [EquationBC]) and its elementary Dirichlet
    conditions. *)
Inductive BC : Type :=
| BC_Dirichlet (d : DirichletBC)
| BC_Equation (is_linear : bool) (sub : list DirichletBC).

(** [isinstance(bc, DirichletBC)] *)
Definition is_DirichletBC (bc : BC) : bool :=
  match bc with BC_Dirichlet _ => true | BC_Equation _ _ => false end.

(** [bc.is_linear], read only on conditions that are not [DirichletBC]. *)
Definition bc_is_linear (bc : BC) : bool :=
  match bc with BC_Dirichlet _ => false | BC_Equation l _ => l end.

(** [bc.dirichlet_bcs()] *)
Definition bc_dirichlet_bcs (bc : BC) : list DirichletBC :=
  match bc with BC_Dirichlet d => [d] | BC_Equation _ sub => sub end.

(** [solving._extract_bcs]: [None] becomes the empty tuple. *)
Definition _extract_bcs (bcs : option (list BC)) : list BC :=
  match bcs with None => [] | Some l => l end.

(** Python's [all]. *)
Definition all (l : list bool) : bool := forallb (fun b => b) l.

(** ** Validation *)

Local Open Scope result_scope.

Definition not_a_form_msg (what : string) (o : pyobj) : string :=
  "Provided " ++ what ++ " is a '" ++ py_type_name o ++ "', not a BaseForm or Slate Tensor".

(** [check_pde_args(F, J, Jp)], lines 17-29. *)
Definition check_pde_args (F J Jp : pyobj) : result unit :=
  if negb (is_BaseForm F) then Raise (TypeError (not_a_form_msg "residual" F)) else
  nF <- py_arity F ;;
  if negb (nF =? 1)%nat then Raise (ValueError "Provided residual is not a linear form") else
  if negb (is_BaseForm J) then Raise (TypeError (not_a_form_msg "Jacobian" J)) else
  nJ <- py_arity J ;;
  if negb (nJ =? 2)%nat then Raise (ValueError "Provided Jacobian is not a bilinear form") else
  if negb (is_None Jp) && negb (is_BaseForm Jp)
  then Raise (TypeError (not_a_form_msg "preconditioner" Jp)) else
  if negb (is_None Jp)
  then nP <- py_arity Jp ;;
       if negb (nP =? 2)%nat
       then Raise (ValueError "Provided preconditioner is not a bilinear form")
       else Ok tt
  else Ok tt.

(** The style flags [is_form_consistent] iterates over:
    [bc.is_linear for bc in bcs if not isinstance(bc, DirichletBC)]. *)
Definition non_dirichlet_styles (bcs : list BC) : list bool :=
  map bc_is_linear (filter (fun bc => negb (is_DirichletBC bc)) bcs).

(** [is_form_consistent(is_linear, bcs)], lines 32-36.  Python parses
    [not a == b] as [not (a == b)], so the test is
    [not ((is_linear == all(..)) or (not (is_linear == all(not ..))))]. *)
Definition is_form_consistent (is_linear : bool) (bcs : list BC) : result unit :=
  if negb (Bool.eqb is_linear (all (non_dirichlet_styles bcs))
           || negb (Bool.eqb is_linear (all (map negb (non_dirichlet_styles bcs)))))
  then Raise (TypeError style_mismatch_msg)
  else Ok tt.

(** ** NonlinearVariationalProblem *)

Definition FormCompilerParameters := list (string * string).

Record NonlinearVariationalProblem : Type := {
  bcs : list BC;
  is_linear : bool;
  Jp_eq_J : bool;
  u : Function;
  F : pyobj;
  Jp : pyobj;
  J : pyobj;
  form_compiler_parameters : option FormCompilerParameters;
  _constant_jacobian : bool
}.

Section Construction.

(** [ufl_expr.derivative(F, u)], an external symbolic transformation: a
    function of the residual and the unknown that returns a form or
    raises. *)
Variable derivative : pyobj -> Function -> result pyobj.

(** [J or ufl_expr.derivative(F, u)], line 75: the supplied Jacobian when
    it is truthy, the derivative of the residual otherwise. *)
Definition J_or_derivative (F0 : pyobj) (uf : Function) (J0 : pyobj) : result pyobj :=
  if py_truthy J0 then Ok J0 else derivative F0 uf.

(** [NonlinearVariationalProblem.__init__], lines 62-82. *)
Definition NonlinearVariationalProblem_init
    (F0 u0 : pyobj) (bcs0 : option (list BC)) (J0 Jp0 : pyobj)
    (fcp : option FormCompilerParameters) (is_linear0 : bool)
  : result NonlinearVariationalProblem :=
  let bcs1 := _extract_bcs bcs0 in
  is_form_consistent is_linear0 bcs1 ;;
  match u0 with
  | PyFunction uf =>
      J1 <- J_or_derivative F0 uf J0 ;;
      check_pde_args F0 J1 Jp0 ;;
      Ok {| bcs := bcs1;
            is_linear := is_linear0;
            Jp_eq_J := is_None Jp0;
            u := uf;
            F := F0;
            Jp := Jp0;
            J := J1;
            form_compiler_parameters := fcp;
            _constant_jacobian := false |}
  | _ => Raise (TypeError
           ("Provided solution is a '" ++ py_type_name u0 ++ "', not a Function"))
  end.

(** [dirichlet_bcs(self)], lines 84-86. *)
Definition dirichlet_bcs (self : NonlinearVariationalProblem) : list DirichletBC :=
  flat_map bc_dirichlet_bcs (bcs self).

(** [dm(self)], lines 88-90. *)
Definition dm (self : NonlinearVariationalProblem) : DM :=
  fs_dm (function_space (u self)).

End Construction.

(** ** Helpers from [firedrake.utils] *)

Definition FunctionSpace_eq_dec (a b : FunctionSpace) : {a = b} + {a <> b}.
Proof. decide equality; apply Nat.eq_dec. Defined.

Definition Coefficient_eq_dec (a b : Coefficient) : {a = b} + {a <> b}.
Proof. decide equality; [apply FunctionSpace_eq_dec | apply Nat.eq_dec]. Defined.

Section Unique.
Context {A : Type} (eq_dec : forall a b : A, {a = b} + {a <> b}).

(** [utils.unique]: the items of an iterable without repetition, each at
    the place of its first occurrence (a [dict] keyed by the items). *)
Fixpoint unique (l : list A) : list A :=
  match l with
  | [] => []
  | x :: l' => x :: remove eq_dec x (unique l')
  end.
End Unique.

(** [form.coefficients()]; a non-form has no such attribute. *)
Definition py_coefficients (o : pyobj) : result (list Coefficient) :=
  match o with
  | PyForm f => Ok (coefficients f)
  | _ => Raise (AttributeError
           ("'" ++ py_type_name o ++ "' object has no attribute 'coefficients'"))
  end.

(** [chain.from_iterable(form.coefficients() for form in forms if form is not None)] *)
Fixpoint chain_coefficients (forms : list pyobj) : result (list Coefficient) :=
  match forms with
  | [] => Ok []
  | form :: rest =>
      if is_None form then chain_coefficients rest
      else cs <- py_coefficients form ;;
           more <- chain_coefficients rest ;;
           Ok (cs ++ more)%list
  end.

(** [o.dat]: the data carrier of whatever object has one, named by the
    identity of the data: a [Function], a [Vector], a form that is a field,
    or an object of any other class with a [.dat] attribute.  Nothing but
    the attribute lookup decides. *)
Definition py_dat (o : pyobj) : result nat :=
  let missing := Raise (AttributeError
                   ("'" ++ py_type_name o ++ "' object has no attribute 'dat'")) in
  match o with
  | PyFunction fn | PyVector fn => Ok (fn_id fn)
  | PyCarrier _ i => Ok i
  | PyForm f => match form_dat f with Some i => Ok i | None => missing end
  | PyNone | PyOther _ _ => missing
  end.

(** ** The solver, the engine and the world they live in *)

(** A context manager entered on the [ExitStack] of [solve]. *)
Inductive Scope : Type :=
| inserted_options                         (* self.inserted_options() *)
| add_hooks (dm : DM) (appctx : nat)       (* dmhooks.add_hooks(dm, self, appctx=..) *)
| transfer_operator (t : nat).             (* an entry of self._transfer_operators *)

Section Orchestration.

(** Numeric contents of a distributed vector. *)
Variable Vec : Type.

(** The engine handle [self.snes]. *)
Record SNES : Type := {
  snes_dm : DM;                        (* getDM() *)
  snes_function : option nat;          (* context whose residual callback is registered *)
  snes_jacobian : option nat;          (* context whose Jacobian callback is registered *)
  snes_bounds : option (Vec * Vec);    (* bounds given to setVariableBounds *)
  snes_reason : Z                      (* getConvergedReason() *)
}.

(** The solver object [self] together with the mutable objects it reaches:
    the data of every [Function] and the stack of entered context managers
    (innermost first). *)
Record World : Type := {
  dat : nat -> Vec;
  entered : list Scope;
  snes : SNES;
  _problem : NonlinearVariationalProblem;
  _ctx : nat;
  _work : Vec;
  _transfer_operators : list nat;
  _setup : bool
}.

(** Calls made to the collaborators, as observed from outside. *)
Inductive Event : Type :=
| EvSetFunction (ctx : nat)                 (* ctx.set_function(snes) *)
| EvSetJacobian (ctx : nat)                 (* ctx.set_jacobian(snes) *)
| EvApply (d : DirichletBC) (target : nat)  (* dbc.apply(problem.u) *)
| EvSetVariableBounds (lb ub : Vec)         (* snes.setVariableBounds(lb, ub) *)
| EvEnter (s : Scope)                       (* stack.enter_context(ctx) *)
| EvExit (s : Scope)                        (* the stack unwinding ctx *)
| EvSnesSolve (x0 x1 : Vec) (outcome : result Z)
    (* snes.solve(None, work): work before and after, and either the
       termination reason left in the engine or the exception raised *)
| EvCheckConvergence                        (* check_snes_convergence(snes) *)
| EvGarbageCleanup (comm : Comm).           (* PETSc.garbage_cleanup(comm=comm) *)

(** *** State, errors and the record of calls *)

Definition M (A : Type) : Type := World -> result A * World * list Event.

Definition ret {A} (a : A) : M A := fun w => (Ok a, w, []).

Definition bind {A B} (m : M A) (k : A -> M B) : M B :=
  fun w =>
    match m w with
    | (Ok a, w1, ev1) =>
        match k a w1 with
        | (r, w2, ev2) => (r, w2, (ev1 ++ ev2)%list)
        end
    | (Raise e, w1, ev1) => (Raise e, w1, ev1)
    end.

Definition lift {A} (r : result A) : M A := fun w => (r, w, []).

Definition get : M World := fun w => (Ok w, w, []).

Definition modify (f : World -> World) : M unit := fun w => (Ok tt, f w, []).

Definition emit (e : Event) : M unit := fun w => (Ok tt, w, [e]).

(** [try: body finally: cleanup], with a cleanup that does not raise. *)
Definition finally {A} (body : M A) (cleanup : M unit) : M A :=
  fun w =>
    match body w with
    | (r, w1, ev1) =>
        match cleanup w1 with
        | (_, w2, ev2) => (r, w2, (ev1 ++ ev2)%list)
        end
    end.

Definition out_result {A} (o : result A * World * list Event) : result A := fst (fst o).
Definition out_world {A} (o : result A * World * list Event) : World := snd (fst o).
Definition out_events {A} (o : result A * World * list Event) : list Event := snd o.

End Orchestration.

Arguments snes_dm {Vec} _.
Arguments snes_function {Vec} _.
Arguments snes_jacobian {Vec} _.
Arguments snes_bounds {Vec} _.
Arguments snes_reason {Vec} _.
Arguments dat {Vec} _ _.
Arguments entered {Vec} _.
Arguments snes {Vec} _.
Arguments _problem {Vec} _.
Arguments _ctx {Vec} _.
Arguments _work {Vec} _.
Arguments _transfer_operators {Vec} _.
Arguments _setup {Vec} _.
Arguments EvSetFunction {Vec} ctx.
Arguments EvSetJacobian {Vec} ctx.
Arguments EvApply {Vec} d target.
Arguments EvSetVariableBounds {Vec} lb ub.
Arguments EvEnter {Vec} s.
Arguments EvExit {Vec} s.
Arguments EvSnesSolve {Vec} x0 x1 outcome.
Arguments EvCheckConvergence {Vec}.
Arguments EvGarbageCleanup {Vec} comm.
Arguments ret {Vec A} a _.
Arguments bind {Vec A B} m k _.
Arguments lift {Vec A} r _.
Arguments get {Vec} _.
Arguments modify {Vec} f _.
Arguments emit {Vec} e _.
Arguments finally {Vec A} body cleanup _.
Arguments out_result {Vec A} o.
Arguments out_world {Vec A} o.
Arguments out_events {Vec A} o.

Declare Scope solver_scope.
Delimit Scope solver_scope with solver.
Notation "x <- m ;; k" := (bind m (fun x => k))
  (at level 61, m at next level, right associativity) : solver_scope.
Notation "m ;; k" := (bind m (fun _ => k))
  (at level 61, right associativity) : solver_scope.

(** ** NonlinearVariationalSolver *)

Section Solver.

Context {Vec : Type}.

Local Open Scope solver_scope.

(** *** The collaborators *)

(** [snes.solve(None, work)]: from the engine state, the entered context
    managers, the field data and the work vector, the engine leaves new
    field data (its callbacks write the iterate into the unknown), a new
    work vector, and either a termination reason or an exception. *)
Variable engine_solve :
  SNES Vec -> list Scope -> (nat -> Vec) -> Vec -> (nat -> Vec) * Vec * result Z.

(** [snes.setVariableBounds(lb, ub)]: accepted, or refused by the engine. *)
Variable engine_setVariableBounds : SNES Vec -> Vec -> Vec -> result unit.

(** [dbc.apply(u)] on the contents of [u]. *)
Variable bc_apply : DirichletBC -> Vec -> Vec.

(** Modelled from the spec: [solving_utils.check_snes_convergence] is not
    among the sources.  It queries the engine's termination reason and
    fails with the divergence error carrying that reason when the solve
    did not converge; the engine's diverged reasons are the negative
    codes. *)
Definition check_snes_convergence (s : SNES Vec) : result unit :=
  if (snes_reason s <? 0)%Z then Raise (ConvergenceError (snes_reason s)) else Ok tt.

(** *** Field updates of the world *)

Definition with_dat (d : nat -> Vec) (w : World Vec) : World Vec :=
  {| dat := d; entered := entered w; snes := snes w; _problem := _problem w;
     _ctx := _ctx w; _work := _work w;
     _transfer_operators := _transfer_operators w; _setup := _setup w |}.

Definition with_entered (l : list Scope) (w : World Vec) : World Vec :=
  {| dat := dat w; entered := l; snes := snes w; _problem := _problem w;
     _ctx := _ctx w; _work := _work w;
     _transfer_operators := _transfer_operators w; _setup := _setup w |}.

Definition with_snes (s : SNES Vec) (w : World Vec) : World Vec :=
  {| dat := dat w; entered := entered w; snes := s; _problem := _problem w;
     _ctx := _ctx w; _work := _work w;
     _transfer_operators := _transfer_operators w; _setup := _setup w |}.

Definition with_work (x : Vec) (w : World Vec) : World Vec :=
  {| dat := dat w; entered := entered w; snes := snes w; _problem := _problem w;
     _ctx := _ctx w; _work := x;
     _transfer_operators := _transfer_operators w; _setup := _setup w |}.

Definition with_setup (b : bool) (w : World Vec) : World Vec :=
  {| dat := dat w; entered := entered w; snes := snes w; _problem := _problem w;
     _ctx := _ctx w; _work := _work w;
     _transfer_operators := _transfer_operators w; _setup := b |}.

Definition snes_with_function (c : nat) (s : SNES Vec) : SNES Vec :=
  {| snes_dm := snes_dm s; snes_function := Some c;
     snes_jacobian := snes_jacobian s; snes_bounds := snes_bounds s;
     snes_reason := snes_reason s |}.

Definition snes_with_jacobian (c : nat) (s : SNES Vec) : SNES Vec :=
  {| snes_dm := snes_dm s; snes_function := snes_function s;
     snes_jacobian := Some c; snes_bounds := snes_bounds s;
     snes_reason := snes_reason s |}.

Definition snes_with_bounds (b : Vec * Vec) (s : SNES Vec) : SNES Vec :=
  {| snes_dm := snes_dm s; snes_function := snes_function s;
     snes_jacobian := snes_jacobian s; snes_bounds := Some b;
     snes_reason := snes_reason s |}.

Definition snes_with_reason (r : Z) (s : SNES Vec) : SNES Vec :=
  {| snes_dm := snes_dm s; snes_function := snes_function s;
     snes_jacobian := snes_jacobian s; snes_bounds := snes_bounds s;
     snes_reason := r |}.

(** The store [d] with the contents of function [i] replaced by [x]. *)
Definition store (d : nat -> Vec) (i : nat) (x : Vec) : nat -> Vec :=
  fun k => if (k =? i)%nat then x else d k.

(** *** Calls on the collaborators *)

(** [self._ctx.set_function(self.snes)] *)
Definition ctx_set_function : M Vec unit :=
  w <- get ;;
  emit (EvSetFunction (_ctx w)) ;;
  modify (with_snes (snes_with_function (_ctx w) (snes w))).

(** [self._ctx.set_jacobian(self.snes)] *)
Definition ctx_set_jacobian : M Vec unit :=
  w <- get ;;
  emit (EvSetJacobian (_ctx w)) ;;
  modify (with_snes (snes_with_jacobian (_ctx w) (snes w))).

(** [self.snes.getDM()] *)
Definition getDM : M Vec DM :=
  w <- get ;; ret (snes_dm (snes w)).

(** [dbc.apply(target)] *)
Definition dbc_apply (d : DirichletBC) (target : Function) : M Vec unit :=
  emit (EvApply d (fn_id target)) ;;
  modify (fun w =>
    with_dat (store (dat w) (fn_id target) (bc_apply d (dat w (fn_id target)))) w).

(** [o.dat.vec_ro]: the contents of a field, read-only. *)
Definition vec_ro (o : pyobj) : M Vec Vec :=
  i <- lift (py_dat o) ;;
  w <- get ;;
  ret (dat w i).

(** [self.snes.setVariableBounds(lb, ub)] *)
Definition snes_setVariableBounds (lb ub : Vec) : M Vec unit :=
  w <- get ;;
  emit (EvSetVariableBounds lb ub) ;;
  lift (engine_setVariableBounds (snes w) lb ub) ;;
  modify (with_snes (snes_with_bounds (lb, ub) (snes w))).

(** [self.snes.solve(None, work)] *)
Definition snes_solve : M Vec unit :=
  fun w =>
    match engine_solve (snes w) (entered w) (dat w) (_work w) with
    | (d1, x1, Ok r) =>
        (Ok tt,
         with_snes (snes_with_reason r (snes w)) (with_work x1 (with_dat d1 w)),
         [EvSnesSolve (_work w) x1 (Ok r)])
    | (d1, x1, Raise e) =>
        (Raise e, with_work x1 (with_dat d1 w), [EvSnesSolve (_work w) x1 (Raise e)])
    end.

(** [stack.enter_context(ctx)] and the matching exit when the stack
    unwinds. *)
Definition enter_context (s : Scope) : M Vec unit :=
  emit (EvEnter s) ;; modify (fun w => with_entered (s :: entered w) w).

Definition exit_context (s : Scope) : M Vec unit :=
  emit (EvExit s) ;; modify (fun w => with_entered (tl (entered w)) w).

Fixpoint enter_all (ctxs : list Scope) : M Vec unit :=
  match ctxs with
  | [] => ret tt
  | s :: rest => enter_context s ;; enter_all rest
  end.

Fixpoint exit_all (ctxs : list Scope) : M Vec unit :=
  match ctxs with
  | [] => ret tt
  | s :: rest => exit_context s ;; exit_all rest
  end.

(** [with ExitStack() as stack: for ctx in ctxs: stack.enter_context(ctx); body]:
    the contexts are entered in order and left in reverse order, whether
    the body returns or raises. *)
Definition ExitStack {A} (ctxs : list Scope) (body : M Vec A) : M Vec A :=
  enter_all ctxs ;; finally body (exit_all (rev ctxs)).

(** [for dbc in problem.dirichlet_bcs(): dbc.apply(problem.u)] *)
Fixpoint apply_bcs (dbcs : list DirichletBC) (target : Function) : M Vec unit :=
  match dbcs with
  | [] => ret tt
  | d :: rest => dbc_apply d target ;; apply_bcs rest target
  end.

(** Lines 259-263: the discretizations to visit, the solution's last. *)
Definition problem_dms (cs : list Coefficient) (solution_dm : DM) : list DM :=
  (map fs_dm
     (filter (fun V => negb (fs_dm V =? solution_dm)%nat)
        (unique FunctionSpace_eq_dec
           (map coeff_function_space (unique Coefficient_eq_dec cs))))
   ++ [solution_dm])%list.

(** The context managers of lines 279-281, in the order they are chained. *)
Definition staged (self : World Vec) (dms : list DM) : list Scope :=
  (inserted_options
     :: map (fun d => add_hooks d (_ctx self)) dms
     ++ map transfer_operator (_transfer_operators self))%list.

(** Lines 268-271: [if bounds is not None: lower, upper = bounds; with
    lower.dat.vec_ro as lb, upper.dat.vec_ro as ub:
    self.snes.setVariableBounds(lb, ub)]. *)
Definition register_bounds (bounds : option (pyobj * pyobj)) : M Vec unit :=
  match bounds with
  | Some (lower, upper) =>
      lb <- vec_ro lower ;;
      ub <- vec_ro upper ;;
      snes_setVariableBounds lb ub
  | None => ret tt
  end.

(** [NonlinearVariationalSolver.solve(self, bounds=None)], lines 252-290. *)
Definition solve (bounds : option (pyobj * pyobj)) : M Vec unit :=
  ctx_set_function ;;
  ctx_set_jacobian ;;
  self <- get ;;
  let problem := _problem self in
  let forms := [F problem; J problem; Jp problem] in
  cs <- lift (chain_coefficients forms) ;;
  solution_dm <- getDM ;;
  let dms := problem_dms cs solution_dm in
  apply_bcs (dirichlet_bcs problem) (u problem) ;;
  register_bounds bounds ;;
  modify (fun w => with_work (dat w (fn_id (u problem))) w) ;;
  ExitStack (staged self dms) snes_solve ;;
  modify (fun w => with_dat (store (dat w) (fn_id (u problem)) (_work w)) w) ;;
  modify (with_setup true) ;;
  (w <- get ;; emit EvCheckConvergence ;; lift (check_snes_convergence (snes w))) ;;
  emit (EvGarbageCleanup (fs_comm (function_space (u problem)))).

(** The statements of [NonlinearVariationalSolver.__init__] that assign
    what [solve] reads (lines 196-205 and 225-226): the engine is created
    on the problem's DM with this solver's callbacks registered, the work
    vector duplicates the layout of the unknown, there are no transfer
    operators and no solve has completed.  [layout_vec] is the fresh
    duplicate and [heap] the field data at construction. *)
Definition NonlinearVariationalSolver_init
    (problem : NonlinearVariationalProblem) (ctx : nat)
    (layout_vec : Vec) (heap : nat -> Vec) : World Vec :=
  {| dat := heap;
     entered := [];
     snes := {| snes_dm := dm problem; snes_function := Some ctx;
                snes_jacobian := Some ctx; snes_bounds := None;
                snes_reason := 0 |};
     _problem := problem;
     _ctx := ctx;
     _work := layout_vec;
     _transfer_operators := [];
     _setup := false |}.

(** The world in which [solve] reaches its bounds step: the callbacks
    rebound and the boundary conditions applied (lines 252-266). *)
Definition prepared (w : World Vec) : World Vec :=
  out_world ((ctx_set_function ;; ctx_set_jacobian ;;
              apply_bcs (dirichlet_bcs (_problem w)) (u (_problem w))) w).

(** The field data after the elementary conditions [dbcs] were applied,
    in order, to function [i]. *)
Definition dat_after (dbcs : list DirichletBC) (i : nat) (d : nat -> Vec) : nat -> Vec :=
  fold_left (fun d0 b => store d0 i (bc_apply b (d0 i))) dbcs d.

(** An outcome with the calls [ev] recorded before its own. *)
Definition prepend {A} (ev : list (Event Vec))
    (o : result A * World Vec * list (Event Vec))
  : result A * World Vec * list (Event Vec) :=
  (out_result o, out_world o, (ev ++ out_events o)%list).

(** Lines 253-254 on their own. *)
Definition rebind : M Vec unit := ctx_set_function ;; ctx_set_jacobian.

(** The discretizations whose context [solve] attaches, in order. *)
Definition attached (evs : list (Event Vec)) : list DM :=
  flat_map (fun e => match e with EvEnter (add_hooks d _) => [d] | _ => [] end) evs.

End Solver.

(** ** A concrete problem, engine and solver

    One unknown on the space [V], a second coefficient on the space [W], a
    single degree of freedom whose value is an integer.  The toy engine
    converges to 2 from a positive initial guess and otherwise stops after
    one step with a negative (diverged) reason. *)

Module Example.

Definition V : FunctionSpace := {| fs_id := 0; fs_dm := 7; fs_comm := 1 |}.
Definition W : FunctionSpace := {| fs_id := 1; fs_dm := 8; fs_comm := 1 |}.

Definition uf : Function := {| fn_id := 0; function_space := V |}.
Definition lowf : Function := {| fn_id := 1; function_space := V |}.
Definition upf : Function := {| fn_id := 2; function_space := V |}.

Definition c_u : Coefficient := {| coeff_id := 0; coeff_function_space := V |}.
Definition c_k : Coefficient := {| coeff_id := 1; coeff_function_space := W |}.

Definition test : Argument := {| arg_number := 0; arg_function_space := V |}.
Definition trial : Argument := {| arg_number := 1; arg_function_space := V |}.

Definition residual : Form :=
  {| arguments := [test]; coefficients := [c_u; c_k]; form_dat := None |}.
Definition bilinear : Form :=
  {| arguments := [test; trial]; coefficients := [c_u; c_k]; form_dat := None |}.
Definition functional : Form :=
  {| arguments := []; coefficients := [c_u]; form_dat := None |}.

(** A derivative in the shape of the real one: one more argument on the
    space of the unknown, the same coefficients; not defined on objects
    that are not forms. *)
Definition derive (F0 : pyobj) (u0 : Function) : result pyobj :=
  match F0 with
  | PyForm f =>
      Ok (PyForm {| arguments :=
                      (arguments f ++
                       [{| arg_number := List.length (arguments f);
                           arg_function_space := function_space u0 |}])%list;
                    coefficients := coefficients f;
                    form_dat := None |})
  | _ => Raise (AttributeError
           ("'" ++ py_type_name F0 ++ "' object has no attribute 'arguments'"))
  end.

Definition linear_bc : BC := BC_Equation true [].
Definition nonlinear_bc : BC := BC_Equation false [].
Definition pin : DirichletBC := {| dbc_id := 5 |}.

Definition problem : NonlinearVariationalProblem :=
  {| bcs := []; is_linear := false; Jp_eq_J := true; u := uf;
     F := PyForm residual; Jp := PyNone; J := PyForm bilinear;
     form_compiler_parameters := None; _constant_jacobian := false |}.

Definition engine (s : SNES Z) (sc : list Scope) (d : nat -> Z) (x : Z)
  : (nat -> Z) * Z * result Z :=
  if (0 <? x)%Z then (store d 0 2%Z, 2%Z, Ok 3%Z)
  else (store d 0 (x - 1)%Z, (x - 1)%Z, Ok (-5)%Z).

Definition accepts_bounds (s : SNES Z) (lb ub : Z) : result unit := Ok tt.
Definition refuses_bounds (s : SNES Z) (lb ub : Z) : result unit :=
  Raise (ExternalError 56).

(** A Dirichlet condition pins the single degree of freedom to its value. *)
Definition pin_apply (d : DirichletBC) (x : Z) : Z := Z.of_nat (dbc_id d).

Definition heap (guess : Z) : nat -> Z :=
  fun i => match i with 0%nat => guess | 1%nat => 0%Z | _ => 10%Z end.

(** The solver right after construction, the unknown holding [guess]. *)
Definition solver (guess : Z) : World Z :=
  NonlinearVariationalSolver_init problem 0 0%Z (heap guess).

End Example.

(** ** Readings of the record of calls *)

Section Readings.

Context {Vec : Type}.

(** The context managers entered, in order. *)
Definition entered_scopes (evs : list (Event Vec)) : list Scope :=
  flat_map (fun e => match e with EvEnter s => [s] | _ => [] end) evs.

(** The context managers left, in order. *)
Definition exited_scopes (evs : list (Event Vec)) : list Scope :=
  flat_map (fun e => match e with EvExit s => [s] | _ => [] end) evs.

End Readings.

(** ** A problem with a Dirichlet condition and an engine that fails *)

Module Pinned.

(** The example problem with its single degree of freedom pinned. *)
Definition problem : NonlinearVariationalProblem :=
  {| bcs := [BC_Dirichlet Example.pin]; is_linear := false; Jp_eq_J := true;
     u := Example.uf; F := PyForm Example.residual; Jp := PyNone;
     J := PyForm Example.bilinear;
     form_compiler_parameters := None; _constant_jacobian := false |}.

Definition solver (guess : Z) : World Z :=
  NonlinearVariationalSolver_init problem 0 0%Z (Example.heap guess).

(** An engine whose residual assembly fails on the first evaluation, after
    the callback has written the iterate into the unknown. *)
Definition failing_engine (s : SNES Z) (sc : list Scope) (d : nat -> Z) (x : Z)
  : (nat -> Z) * Z * result Z :=
  (store d 0 x, x, Raise (ExternalError 76)).

End Pinned.

(** ** Two coefficient spaces on one discretization *)

Module Shared.

(** A second space on the DM of [Example.W], and a coefficient on it. *)
Definition W2 : FunctionSpace := {| fs_id := 2; fs_dm := 8; fs_comm := 1 |}.
Definition c_m : Coefficient := {| coeff_id := 2; coeff_function_space := W2 |}.

Definition residual : Form :=
  {| arguments := [Example.test];
     coefficients := [Example.c_u; Example.c_k; c_m]; form_dat := None |}.
Definition bilinear : Form :=
  {| arguments := [Example.test; Example.trial];
     coefficients := [Example.c_u; Example.c_k; c_m]; form_dat := None |}.

Definition problem : NonlinearVariationalProblem :=
  {| bcs := []; is_linear := false; Jp_eq_J := true; u := Example.uf;
     F := PyForm residual; Jp := PyNone; J := PyForm bilinear;
     form_compiler_parameters := None; _constant_jacobian := false |}.

Definition solver (guess : Z) : World Z :=
  NonlinearVariationalSolver_init problem 0 0%Z (Example.heap guess).

End Shared.

Local Open Scope list_scope.

(** * Validation of the problem description *)

Section StyleCheck.

Lemma all_true (l : list bool) : all l = true <-> forall b, In b l -> b = true.
Proof. unfold all. rewrite forallb_forall. reflexivity. Qed.

Lemma all_negb_true (l : list bool) :
  all (map negb l) = true <-> forall b, In b l -> b = false.
Proof.
  rewrite all_true. split.
  - intros H b Hb. apply negb_true_iff, H, in_map, Hb.
  - intros H b Hb. apply in_map_iff in Hb as (c & <- & Hc).
    rewrite (H c Hc). reflexivity.
Qed.

(** The style check raises exactly on the sets whose non-Dirichlet
    conditions are at least one and all of the style opposite to the
    declared one. *)
Lemma is_form_consistent_raises_iff (declared : bool) (l : list BC) :
  is_form_consistent declared l = Raise (TypeError style_mismatch_msg) <->
  non_dirichlet_styles l <> [] /\
  forall s, In s (non_dirichlet_styles l) -> s = negb declared.
Proof.
  unfold is_form_consistent.
  set (ss := non_dirichlet_styles l).
  assert (Hraise :
    (if negb (Bool.eqb declared (all ss)
              || negb (Bool.eqb declared (all (map negb ss))))
     then Raise (TypeError style_mismatch_msg) else Ok tt)
    = Raise (TypeError style_mismatch_msg)
    <-> all ss = negb declared /\ all (map negb ss) = declared).
  { destruct declared, (all ss), (all (map negb ss)); cbn;
      split; intros H; try discriminate; try (destruct H; discriminate); auto. }
  rewrite Hraise. clear Hraise. split.
  - intros [Ha Hn]. split.
    + intros E. rewrite E in Ha, Hn. destruct declared; cbn in Ha, Hn; discriminate.
    + destruct declared; cbn in *.
      * apply all_negb_true, Hn.
      * apply all_true, Ha.
  - intros [Hne Hall]. destruct ss as [|s ss']; [congruence|].
    pose proof (Hall s (or_introl eq_refl)) as Hs.
    destruct declared; cbn [negb] in Hs; subst s.
    + split; [reflexivity|]. apply all_negb_true. exact Hall.
    + split; [|reflexivity]. apply all_true. exact Hall.
Qed.

Lemma is_form_consistent_cases (declared : bool) (l : list BC) :
  is_form_consistent declared l = Ok tt \/
  is_form_consistent declared l = Raise (TypeError style_mismatch_msg).
Proof. unfold is_form_consistent. destruct (negb _); auto. Qed.

End StyleCheck.

Section ConstructionFacts.

Variable derivative : pyobj -> Function -> result pyobj.

Local Abbreviation init := (NonlinearVariationalProblem_init derivative).


Lemma check_pde_args_arity_F (f : Form) (J1 Jp0 : pyobj) :
  List.length (arguments f) <> 1%nat ->
  check_pde_args (PyForm f) J1 Jp0 =
  Raise (ValueError "Provided residual is not a linear form").
Proof.
  intros H. unfold check_pde_args. cbn.
  apply Nat.eqb_neq in H. rewrite H. reflexivity.
Qed.


Lemma check_pde_args_arity_J (f j : Form) (Jp0 : pyobj) :
  List.length (arguments f) = 1%nat -> List.length (arguments j) <> 2%nat ->
  check_pde_args (PyForm f) (PyForm j) Jp0 =
  Raise (ValueError "Provided Jacobian is not a bilinear form").
Proof.
  intros H1 H2. unfold check_pde_args. cbn. rewrite H1.
  apply Nat.eqb_neq in H2. rewrite H2. reflexivity.
Qed.


Lemma check_pde_args_arity_Jp (f j jp : Form) :
  List.length (arguments f) = 1%nat -> List.length (arguments j) = 2%nat ->
  List.length (arguments jp) <> 2%nat ->
  check_pde_args (PyForm f) (PyForm j) (PyForm jp) =
  Raise (ValueError "Provided preconditioner is not a bilinear form").
Proof.
  intros H1 H2 H3. unfold check_pde_args. cbn. rewrite H1, H2.
  apply Nat.eqb_neq in H3. rewrite H3. reflexivity.
Qed.

Lemma check_pde_args_ok (f j : Form) (Jp0 : pyobj) :
  List.length (arguments f) = 1%nat -> List.length (arguments j) = 2%nat ->
  Jp0 = PyNone \/ (exists jp, Jp0 = PyForm jp /\ List.length (arguments jp) = 2%nat) ->
  check_pde_args (PyForm f) (PyForm j) Jp0 = Ok tt.
Proof.
  intros H1 H2 [->|(jp & -> & H3)]; unfold check_pde_args; cbn;
    rewrite H1, H2; cbn; [|rewrite H3]; reflexivity.
Qed.

(** The constructor on an unknown that is a [Function], once the style
    check has passed and the Jacobian is known. *)
Lemma init_checked F0 uf bcs0 J0 Jp0 fcp declared J1 :
  is_form_consistent declared (_extract_bcs bcs0) = Ok tt ->
  J_or_derivative derivative F0 uf J0 = Ok J1 ->
  init F0 (PyFunction uf) bcs0 J0 Jp0 fcp declared =
  rbind (check_pde_args F0 J1 Jp0) (fun _ =>
    Ok {| bcs := _extract_bcs bcs0; is_linear := declared; Jp_eq_J := is_None Jp0;
          u := uf; F := F0; Jp := Jp0; J := J1;
          form_compiler_parameters := fcp; _constant_jacobian := false |}).
Proof.
  intros Hs HJ. unfold NonlinearVariationalProblem_init.
  rewrite Hs, HJ. reflexivity.
Qed.

(** A successful construction went through every check. *)
Lemma init_ok_inv F0 u0 bcs0 J0 Jp0 fcp declared p :
  init F0 u0 bcs0 J0 Jp0 fcp declared = Ok p ->
  exists uf J1,
    u0 = PyFunction uf /\
    is_form_consistent declared (_extract_bcs bcs0) = Ok tt /\
    J_or_derivative derivative F0 uf J0 = Ok J1 /\
    check_pde_args F0 J1 Jp0 = Ok tt /\
    p = {| bcs := _extract_bcs bcs0; is_linear := declared; Jp_eq_J := is_None Jp0;
           u := uf; F := F0; Jp := Jp0; J := J1;
           form_compiler_parameters := fcp; _constant_jacobian := false |}.
Proof.
  unfold NonlinearVariationalProblem_init. intros H.
  destruct (is_form_consistent _ _) as [[]|e] eqn:Hs; [|discriminate].
  cbn in H. destruct u0 as [|f|uf|v|n t|n i]; try discriminate.
  destruct (J_or_derivative _ _ _ _) as [J1|e] eqn:HJ; [|discriminate].
  cbn in H. destruct (check_pde_args _ _ _) as [[]|e] eqn:Hc; [|discriminate].
  cbn in H. injection H as <-. exists uf, J1. repeat split; assumption.
Qed.


End ConstructionFacts.

(** C2 (failing input): declared style 'A == b' with one condition of each
    style.  A condition disagrees with the declared style, yet the style
    check passes and the problem is constructed. *)
Theorem C2_mixed_styles_are_accepted :
  let given := [Example.linear_bc; Example.nonlinear_bc] in
  (exists bc, In bc given /\ is_DirichletBC bc = false /\ bc_is_linear bc <> true) /\
  is_form_consistent true given = Ok tt /\
  exists p,
    NonlinearVariationalProblem_init Example.derive
      (PyForm Example.residual) (PyFunction Example.uf) (Some given)
      PyNone PyNone None true = Ok p.
Proof.
  cbn zeta. split; [|split].
  - exists Example.nonlinear_bc. cbn. intuition discriminate.
  - reflexivity.
  - eexists. reflexivity.
Qed.

(** C5: when the Jacobian is omitted, a constructed problem holds exactly
    the derivative of the residual with respect to the unknown, a function
    of these two alone; a Jacobian supplied as a form (or as any truthy
    object) is stored unchanged. *)
Theorem C5_jacobian_is_derivative_or_supplied :
  forall (derivative : pyobj -> Function -> result pyobj)
         F0 u0 bcs0 J0 Jp0 fcp declared p,
    NonlinearVariationalProblem_init derivative F0 u0 bcs0 J0 Jp0 fcp declared = Ok p ->
    (J0 = PyNone ->
       exists uf, u0 = PyFunction uf /\ derivative F0 uf = Ok (J p)) /\
    (forall j, J0 = PyForm j -> J p = PyForm j) /\
    (py_truthy J0 = true -> J p = J0).
Proof.
  intros derivative F0 u0 bcs0 J0 Jp0 fcp declared p H.
  apply init_ok_inv in H as (uf & J1 & -> & _ & HJ & _ & ->). cbn [J].
  unfold J_or_derivative in HJ. repeat split.
  - intros ->. exists uf. split; [reflexivity|exact HJ].
  - intros j ->. cbn in HJ. congruence.
  - intros Ht. rewrite Ht in HJ. congruence.
Qed.

Lemma C5_witness :
  NonlinearVariationalProblem_init Example.derive
    (PyForm Example.residual) (PyFunction Example.uf) None PyNone PyNone None false
  = Ok Example.problem /\
  (exists uf, PyFunction Example.uf = PyFunction uf /\
              Example.derive (PyForm Example.residual) uf = Ok (J Example.problem)).
Proof.
  split; [reflexivity|].
  apply (C5_jacobian_is_derivative_or_supplied Example.derive
           (PyForm Example.residual) (PyFunction Example.uf) None PyNone PyNone
           None false Example.problem eq_refl).
  reflexivity.
Defined.

(** C6, as stated, fails: a residual without free arguments given together
    with an unknown that is not a [Function] is refused with a [TypeError],
    not with the arity error. *)
Lemma C6_arity_error_is_preempted :
  List.length (arguments Example.functional) <> 1%nat /\
  ~ ArityKind
      (NonlinearVariationalProblem_init Example.derive
         (PyForm Example.functional) (PyOther "float" true) None
         (PyForm Example.bilinear) PyNone None false).
Proof.
  split; [cbn; lia|]. intros [msg H]. discriminate H.
Qed.

(** C6 (amended): once the style check has passed, the unknown is a
    [Function] and the Jacobian is supplied or derived, construction fails
    with the arity error when the residual is a form without exactly one
    argument, when the residual is fine and the Jacobian is a form without
    exactly two, and when both are fine and the preconditioner is a form
    without exactly two.  Whatever the other inputs, forms that all have the
    right arity never lead to the arity error. *)
Theorem C6_arity_errors :
  forall (derivative : pyobj -> Function -> result pyobj)
         F0 u0 bcs0 J0 Jp0 fcp declared,
    let r := NonlinearVariationalProblem_init derivative F0 u0 bcs0 J0 Jp0 fcp declared in
    (forall uf J1,
       is_form_consistent declared (_extract_bcs bcs0) = Ok tt ->
       u0 = PyFunction uf ->
       J_or_derivative derivative F0 uf J0 = Ok J1 ->
       (forall f, F0 = PyForm f -> List.length (arguments f) <> 1%nat -> ArityKind r) /\
       (forall f j, F0 = PyForm f -> List.length (arguments f) = 1%nat ->
                    J1 = PyForm j -> List.length (arguments j) <> 2%nat -> ArityKind r) /\
       (forall f j jp, F0 = PyForm f -> List.length (arguments f) = 1%nat ->
                       J1 = PyForm j -> List.length (arguments j) = 2%nat ->
                       Jp0 = PyForm jp -> List.length (arguments jp) <> 2%nat ->
                       ArityKind r)) /\
    (forall f j,
       F0 = PyForm f -> List.length (arguments f) = 1%nat ->
       (forall uf, u0 = PyFunction uf ->
                   J_or_derivative derivative F0 uf J0 = Ok (PyForm j)) ->
       List.length (arguments j) = 2%nat ->
       Jp0 = PyNone \/
         (exists jp, Jp0 = PyForm jp /\ List.length (arguments jp) = 2%nat) ->
       ~ ArityKind r).
Proof.
  intros derivative F0 u0 bcs0 J0 Jp0 fcp declared r. split.
  - intros uf J1 Hs -> HJ. subst r. rewrite (init_checked _ _ _ _ _ _ _ _ _ Hs HJ).
    unfold ArityKind. repeat split.
    + intros f -> Hf. rewrite check_pde_args_arity_F by assumption.
      eexists. reflexivity.
    + intros f j -> Hf -> Hj. rewrite check_pde_args_arity_J by assumption.
      eexists. reflexivity.
    + intros f j jp -> Hf -> Hj -> Hjp. rewrite check_pde_args_arity_Jp by assumption.
      eexists. reflexivity.
  - intros f j -> Hf HJ Hj HJp [msg H]. subst r.
    destruct (is_form_consistent_cases declared (_extract_bcs bcs0)) as [Hs|Hs].
    + destruct u0 as [|f0|uf|v|n t|n i];
        try (unfold NonlinearVariationalProblem_init in H; rewrite Hs in H;
             discriminate H).
      rewrite (init_checked _ _ _ _ _ _ _ _ _ Hs (HJ uf eq_refl)) in H.
      rewrite check_pde_args_ok in H by assumption. discriminate H.
    + unfold NonlinearVariationalProblem_init in H. rewrite Hs in H. discriminate H.
Qed.

Lemma C6_witness :
  ArityKind
    (NonlinearVariationalProblem_init Example.derive
       (PyForm Example.functional) (PyFunction Example.uf) None
       (PyForm Example.bilinear) PyNone None false) /\
  ArityKind
    (NonlinearVariationalProblem_init Example.derive
       (PyForm Example.residual) (PyFunction Example.uf) None
       (PyForm Example.residual) PyNone None false) /\
  ArityKind
    (NonlinearVariationalProblem_init Example.derive
       (PyForm Example.residual) (PyFunction Example.uf) None
       PyNone (PyForm Example.functional) None false) /\
  ~ ArityKind
    (NonlinearVariationalProblem_init Example.derive
       (PyForm Example.residual) (PyFunction Example.uf) None
       PyNone (PyForm Example.bilinear) None false).
Proof.
  repeat split.
  - refine (proj1 (proj1 (C6_arity_errors Example.derive
              (PyForm Example.functional) (PyFunction Example.uf) None
              (PyForm Example.bilinear) PyNone None false)
            Example.uf (PyForm Example.bilinear) eq_refl eq_refl eq_refl)
            Example.functional eq_refl _).
    cbn. lia.
  - refine (proj1 (proj2 (proj1 (C6_arity_errors Example.derive
              (PyForm Example.residual) (PyFunction Example.uf) None
              (PyForm Example.residual) PyNone None false)
            Example.uf (PyForm Example.residual) eq_refl eq_refl eq_refl))
            Example.residual Example.residual eq_refl eq_refl eq_refl _).
    cbn. lia.
  - refine (proj2 (proj2 (proj1 (C6_arity_errors Example.derive
              (PyForm Example.residual) (PyFunction Example.uf) None
              PyNone (PyForm Example.functional) None false)
            Example.uf _ eq_refl eq_refl eq_refl))
            Example.residual _ Example.functional eq_refl eq_refl eq_refl eq_refl
            eq_refl _).
    cbn. lia.
  - refine (proj2 (C6_arity_errors Example.derive
              (PyForm Example.residual) (PyFunction Example.uf) None
              PyNone (PyForm Example.bilinear) None false)
            Example.residual Example.bilinear eq_refl eq_refl _ eq_refl _).
    + intros uf e. injection e as <-. reflexivity.
    + right. exists Example.bilinear. split; reflexivity.
Defined.




(** * Running the solver *)

Section UniqueFacts.
Context {A : Type} (eq_dec : forall a b : A, {a = b} + {a <> b}).

Lemma NoDup_remove_all (x : A) (l : list A) :
  NoDup l -> NoDup (remove eq_dec x l).
Proof.
  induction 1 as [|y l Hy Hl IH]; cbn; [constructor|].
  destruct (eq_dec x y); [exact IH|].
  constructor; [|exact IH].
  intros Hin. apply in_remove in Hin. tauto.
Qed.

Lemma unique_In (x : A) (l : list A) : In x (unique eq_dec l) <-> In x l.
Proof.
  induction l as [|y l IH]; cbn; [tauto|]. split.
  - intros [->|H]; [auto|]. apply in_remove in H. right. apply IH, H.
  - intros [->|H]; [auto|].
    destruct (eq_dec x y) as [->|Hne]; [auto|].
    right. apply in_in_remove; [exact Hne|]. apply IH, H.
Qed.

Lemma unique_NoDup (l : list A) : NoDup (unique eq_dec l).
Proof.
  induction l as [|y l IH]; cbn; constructor.
  - apply remove_In.
  - apply NoDup_remove_all, IH.
Qed.
End UniqueFacts.

(** The coefficients chained from the forms are those of the forms that are
    not [None]. *)
Lemma chain_coefficients_In (forms : list pyobj) (cs : list Coefficient) :
  chain_coefficients forms = Ok cs ->
  forall c, In c cs <->
            exists f, In (PyForm f) forms /\ In c (coefficients f).
Proof.
  revert cs. induction forms as [|o forms IH]; cbn; intros cs H c.
  - injection H as <-. cbn. split; [tauto|]. intros (f & [] & _).
  - destruct o as [|f|fn|fn|n t|n i]; cbn in H; try discriminate.
    + rewrite (IH cs H c). split.
      * intros (f & Hf & Hc). exists f. auto.
      * intros (f & [Hf|Hf] & Hc); [discriminate|]. exists f. auto.
    + destruct (chain_coefficients forms) as [more|e]; [|discriminate].
      cbn in H. injection H as <-. rewrite in_app_iff, (IH more eq_refl c). split.
      * intros [Hc|(g & Hg & Hc)]; [exists f; auto|exists g; auto].
      * intros (g & [Hg|Hg] & Hc).
        -- injection Hg as <-. auto.
        -- right. exists g. auto.
Qed.

(** The discretizations visited: those of the coefficients' spaces, without
    repetition and without the solution's, then the solution's. *)
Lemma problem_dms_spec (cs : list Coefficient) (solution_dm : DM) :
  exists Vs,
    problem_dms cs solution_dm = (map fs_dm Vs ++ [solution_dm])%list /\
    NoDup Vs /\
    ~ In solution_dm (map fs_dm Vs) /\
    forall V, In V Vs <->
              fs_dm V <> solution_dm /\
              exists c, In c cs /\ coeff_function_space c = V.
Proof.
  eexists. split; [reflexivity|]. split; [|split].
  - apply NoDup_filter, unique_NoDup.
  - intros H. apply in_map_iff in H as (V & HV & Hin).
    apply filter_In in Hin as [_ Hne].
    apply negb_true_iff, Nat.eqb_neq in Hne. contradiction.
  - intros V. rewrite filter_In, unique_In, in_map_iff, negb_true_iff, Nat.eqb_neq.
    split.
    + intros [(c & Hc & Hin) Hne]. split; [exact Hne|].
      exists c. split; [|exact Hc]. apply unique_In in Hin. exact Hin.
    + intros [Hne (c & Hin & Hc)]. split; [|exact Hne].
      exists c. split; [exact Hc|]. apply unique_In. exact Hin.
Qed.

Section Runs.

Context {Vec : Type}.
Variable engine_solve :
  SNES Vec -> list Scope -> (nat -> Vec) -> Vec -> (nat -> Vec) * Vec * result Z.
Variable engine_setVariableBounds : SNES Vec -> Vec -> Vec -> result unit.
Variable bc_apply : DirichletBC -> Vec -> Vec.

Lemma bind_ok {A B} (m : M Vec A) (k : A -> M Vec B) w a w1 ev1 :
  m w = (Ok a, w1, ev1) -> bind m k w = prepend ev1 (k a w1).
Proof.
  intros H. unfold bind, prepend. rewrite H.
  destruct (k a w1) as [[r w2] ev2]. reflexivity.
Qed.

Lemma bind_raise {A B} (m : M Vec A) (k : A -> M Vec B) w e w1 ev1 :
  m w = (Raise e, w1, ev1) -> bind m k w = (Raise e, w1, ev1).
Proof. intros H. unfold bind. rewrite H. reflexivity. Qed.

Ltac step := erewrite bind_ok by reflexivity.

Ltac project :=
  cbn [_problem _ctx snes snes_dm dat entered _work _transfer_operators _setup
       with_dat with_snes with_work with_entered with_setup
       snes_with_function snes_with_jacobian snes_with_bounds snes_with_reason
       snes_function snes_jacobian snes_bounds snes_reason
       out_result out_world out_events fst snd].

Ltac project_in H :=
  cbn [_problem _ctx snes snes_dm dat entered _work _transfer_operators _setup
       with_dat with_snes with_work with_entered with_setup
       snes_with_function snes_with_jacobian snes_with_bounds snes_with_reason
       snes_function snes_jacobian snes_bounds snes_reason
       out_result out_world out_events fst snd] in H.

Lemma enter_all_run (l : list Scope) (w : World Vec) :
  enter_all l w = (Ok tt, with_entered (rev l ++ entered w) w, map EvEnter l).
Proof.
  revert w. induction l as [|s l IH]; intros w.
  - destruct w; reflexivity.
  - cbn [enter_all]. step. rewrite IH. cbn.
    rewrite <- app_assoc. reflexivity.
Qed.

Lemma skipn_tl {A} (n : nat) (l : list A) : skipn n (tl l) = skipn (S n) l.
Proof. destruct l; [destruct n|]; reflexivity. Qed.

Lemma exit_all_run (l : list Scope) (w : World Vec) :
  exit_all l w =
  (Ok tt, with_entered (skipn (List.length l) (entered w)) w, map EvExit l).
Proof.
  revert w. induction l as [|s l IH]; intros w.
  - destruct w; reflexivity.
  - cbn [exit_all]. step. rewrite IH. cbn.
    rewrite skipn_tl. reflexivity.
Qed.

(** The stack leaves the world as the body left it, with the contexts it
    entered removed again, whether the body returned or raised. *)
Lemma ExitStack_run {A} (l : list Scope) (body : M Vec A) (w : World Vec) :
  ExitStack l body w =
  let o := body (with_entered (rev l ++ entered w) w) in
  (out_result o,
   with_entered (skipn (List.length l) (entered (out_world o))) (out_world o),
   (map EvEnter l ++ out_events o ++ map EvExit (rev l))%list).
Proof.
  unfold ExitStack. erewrite bind_ok by apply enter_all_run. unfold finally.
  destruct (body _) as [[r w1] ev1]. rewrite exit_all_run.
  cbn. rewrite length_rev. reflexivity.
Qed.

Lemma apply_bcs_run (l : list DirichletBC) (t : Function) (w : World Vec) :
  apply_bcs bc_apply l t w =
  (Ok tt, with_dat (dat_after bc_apply l (fn_id t) (dat w)) w,
   map (fun b => EvApply b (fn_id t)) l).
Proof.
  revert w. induction l as [|b l IH]; intros w.
  - destruct w; reflexivity.
  - cbn [apply_bcs]. step. rewrite IH. reflexivity.
Qed.

Lemma rebind_run (w : World Vec) :
  rebind w =
  (Ok tt,
   with_snes (snes_with_jacobian (_ctx w) (snes_with_function (_ctx w) (snes w))) w,
   [EvSetFunction (_ctx w); EvSetJacobian (_ctx w)]).
Proof. destruct w as [d en s p c wk tr st]. destruct s. reflexivity. Qed.

Lemma prepared_eq (w : World Vec) :
  prepared bc_apply w =
  with_dat (dat_after bc_apply (dirichlet_bcs (_problem w)) (fn_id (u (_problem w))) (dat w))
    (with_snes (snes_with_jacobian (_ctx w) (snes_with_function (_ctx w) (snes w))) w).
Proof.
  unfold prepared. do 2 step. rewrite apply_bcs_run.
  destruct w as [d en s p c wk tr st]. destruct s. reflexivity.
Qed.

Lemma register_bounds_run bounds (w : World Vec) :
  register_bounds engine_setVariableBounds bounds w =
  match bounds with
  | None => (Ok tt, w, [])
  | Some (lower, upper) =>
      match py_dat lower with
      | Raise e => (Raise e, w, [])
      | Ok il =>
          match py_dat upper with
          | Raise e => (Raise e, w, [])
          | Ok iu =>
              match engine_setVariableBounds (snes w) (dat w il) (dat w iu) with
              | Raise e => (Raise e, w, [EvSetVariableBounds (dat w il) (dat w iu)])
              | Ok _ => (Ok tt, with_snes (snes_with_bounds (dat w il, dat w iu) (snes w)) w,
                         [EvSetVariableBounds (dat w il) (dat w iu)])
              end
          end
      end
  end.
Proof.
  destruct bounds as [[lower upper]|]; [|reflexivity].
  unfold register_bounds, vec_ro, snes_setVariableBounds.
  unfold bind, lift, get, ret, emit, modify.
  destruct (py_dat lower) as [il|e]; [|reflexivity].
  destruct (py_dat upper) as [iu|e]; [|reflexivity].
  destruct (engine_setVariableBounds _ _ _) as [[]|e]; reflexivity.
Qed.

Lemma staged_solve_run (sc : list Scope) (w : World Vec) :
  ExitStack sc (snes_solve engine_solve) w =
  match engine_solve (snes w) (rev sc ++ entered w)%list (dat w) (_work w) with
  | (d1, x1, Raise e) =>
      (Raise e, with_entered (entered w) (with_work x1 (with_dat d1 w)),
       (map EvEnter sc ++ [EvSnesSolve (_work w) x1 (Raise e)] ++ map EvExit (rev sc))%list)
  | (d1, x1, Ok r) =>
      (Ok tt,
       with_entered (entered w)
         (with_snes (snes_with_reason r (snes w)) (with_work x1 (with_dat d1 w))),
       (map EvEnter sc ++ [EvSnesSolve (_work w) x1 (Ok r)] ++ map EvExit (rev sc))%list)
  end.
Proof.
  rewrite ExitStack_run. unfold snes_solve. cbn.
  destruct (engine_solve _ _ _ _) as [[d1 x1] [r|e]]; cbn;
    rewrite <- (length_rev sc), skipn_app, skipn_all, Nat.sub_diag; reflexivity.
Qed.

(** [solve] in closed form, one case per way it can end. *)
Lemma solve_run bounds (w : World Vec) :
  solve engine_solve engine_setVariableBounds bc_apply bounds w =
  let c := _ctx w in
  let p := _problem w in
  let uid := fn_id (u p) in
  match chain_coefficients [F p; J p; Jp p] with
  | Raise e =>
      (Raise e,
       with_snes (snes_with_jacobian c (snes_with_function c (snes w))) w,
       [EvSetFunction c; EvSetJacobian c])
  | Ok cs =>
      let ob := register_bounds engine_setVariableBounds bounds (prepared bc_apply w) in
      let pre := (EvSetFunction c :: EvSetJacobian c ::
                  map (fun b => EvApply b uid) (dirichlet_bcs p) ++ out_events ob)%list in
      match out_result ob with
      | Raise e => (Raise e, out_world ob, pre)
      | Ok _ =>
          let w3 := out_world ob in
          let sc := staged w (problem_dms cs (snes_dm (snes w))) in
          let x0 := dat w3 uid in
          match engine_solve (snes w3) (rev sc ++ entered w3)%list (dat w3) x0 with
          | (d1, x1, Raise e) =>
              (Raise e,
               with_entered (entered w3) (with_work x1 (with_dat d1 w3)),
               (pre ++ map EvEnter sc ++ [EvSnesSolve x0 x1 (Raise e)]
                    ++ map EvExit (rev sc))%list)
          | (d1, x1, Ok r) =>
              (check_snes_convergence (snes_with_reason r (snes w3)),
               with_setup true
                 (with_dat (store d1 uid x1)
                    (with_entered (entered w3)
                       (with_snes (snes_with_reason r (snes w3))
                          (with_work x1 w3)))),
               (pre ++ map EvEnter sc ++ [EvSnesSolve x0 x1 (Ok r)]
                    ++ map EvExit (rev sc)
                    ++ EvCheckConvergence
                       :: (if (r <? 0)%Z then []
                           else [EvGarbageCleanup (fs_comm (function_space (u p)))]))%list)
          end
      end
  end.
Proof.
  rewrite prepared_eq.
  destruct w as [d en [sdm sf sj sb sr] p c wk tr st].
  unfold solve. do 3 step. project.
  destruct (chain_coefficients _) as [cs|e]; [|reflexivity].
  do 2 step.
  erewrite bind_ok by apply apply_bcs_run. project.
  destruct (register_bounds _ _ _) as [[[[]|e] w3] evb] eqn:Hb.
  2:{ erewrite bind_raise by exact Hb. reflexivity. }
  erewrite bind_ok by exact Hb. step.
  match goal with
  | |- context [bind (ExitStack ?sc _) _ ?w4] =>
      pose proof (staged_solve_run sc w4) as Hs
  end.
  project. project_in Hs.
  destruct (engine_solve _ _ _ _) as [[d1 x1] [r|e]].
  - erewrite bind_ok by exact Hs. do 2 step.
    unfold check_snes_convergence. project.
    destruct (r <? 0)%Z eqn:Hr.
    + erewrite bind_raise by (cbv [bind get emit lift]; cbn; rewrite Hr; reflexivity).
      unfold prepend. cbn. rewrite <- !app_assoc. reflexivity.
    + erewrite bind_ok by (cbv [bind get emit lift]; cbn; rewrite Hr; reflexivity).
      unfold prepend. cbn. rewrite <- !app_assoc. reflexivity.
  - erewrite bind_raise by exact Hs. unfold prepend. cbn.
    rewrite <- !app_assoc. reflexivity.
Qed.

Local Abbreviation solve := (solve engine_solve engine_setVariableBounds bc_apply).
Local Abbreviation register_bounds := (register_bounds engine_setVariableBounds).

(** What the bounds step can record and what it leaves untouched. *)
Lemma register_bounds_frame bounds (w : World Vec) :
  let ob := register_bounds bounds w in
  (out_events ob = [] \/ exists lb ub, out_events ob = [EvSetVariableBounds lb ub]) /\
  dat (out_world ob) = dat w /\
  entered (out_world ob) = entered w /\
  snes_function (snes (out_world ob)) = snes_function (snes w) /\
  snes_jacobian (snes (out_world ob)) = snes_jacobian (snes w).
Proof.
  rewrite register_bounds_run.
  destruct bounds as [[lower upper]|]; [|cbn; auto 6].
  destruct (py_dat lower) as [il|e]; [|cbn; auto 6].
  destruct (py_dat upper) as [iu|e]; [|cbn; auto 6].
  destruct (engine_setVariableBounds _ _ _) as [[]|e]; cbn; eauto 8.
Qed.

Lemma store_same (d : nat -> Vec) (i : nat) (x : Vec) : store d i x i = x.
Proof. unfold store. rewrite Nat.eqb_refl. reflexivity. Qed.

(** Membership of an event in the pieces a run is made of. *)
Ltac in_inv H :=
  repeat first
    [ apply in_app_or in H; destruct H as [H|H]
    | apply in_map_iff in H; destruct H as (? & H & ?); discriminate H
    | cbn [In] in H; destruct H as [H|H]; [try discriminate H|]
    | contradiction H ].

Ltac in_find :=
  cbn [In];
  first [ left; reflexivity
        | right; in_find
        | apply in_or_app; first [ left; in_find | right; in_find ] ].

(** A solve in which the engine returned: the calls made, the result and
    the world left behind. *)
Lemma solve_completed bounds (w : World Vec) x0 x1 r :
  In (EvSnesSolve x0 x1 (Ok r)) (out_events (solve bounds w)) ->
  let o := solve bounds w in
  let uid := fn_id (u (_problem w)) in
  (exists pre mid,
     out_events o =
       (pre ++ EvSnesSolve x0 x1 (Ok r) :: mid ++ EvCheckConvergence
            :: (if (r <? 0)%Z then []
                else [EvGarbageCleanup (fs_comm (function_space (u (_problem w))))]))%list /\
     (forall c, ~ In (EvGarbageCleanup c) pre) /\
     (forall c, ~ In (EvGarbageCleanup c) mid)) /\
  out_result o = (if (r <? 0)%Z then Raise (ConvergenceError r) else Ok tt) /\
  dat (out_world o) uid = x1 /\
  _work (out_world o) = x1 /\
  _setup (out_world o) = true.
Proof.
  cbv zeta. rewrite solve_run. cbv zeta.
  destruct (chain_coefficients _) as [cs|e]; [|intros H; in_inv H].
  pose proof (register_bounds_frame bounds (prepared bc_apply w)) as (Hev & _).
  destruct (register_bounds bounds (prepared bc_apply w)) as [[[[]|e] w3] evb].
  2:{ cbn in Hev |- *. intros H.
      destruct Hev as [->|(lb & ub & ->)]; in_inv H. }
  project. project_in Hev.
  destruct (engine_solve _ _ _ _) as [[d1 x1'] [r'|e]]; project; intros H.
  2:{ destruct Hev as [->|(lb & ub & ->)]; in_inv H. }
  assert (E : EvSnesSolve (dat w3 (fn_id (u (_problem w)))) x1' (Ok r')
              = EvSnesSolve x0 x1 (Ok r)).
  { destruct Hev as [->|(lb & ub & ->)]; in_inv H; try exact H;
      destruct (r' <? 0)%Z; in_inv H. }
  injection E as <- <- <-. clear H.
  split; [|split; [|split; [|split]]].
  - match goal with
    | |- context [(?a :: ?b :: ?l1 ++ ?l2) ++ ?l3 ++ [?e] ++ ?l4 ++ ?l5] =>
        exists (a :: b :: l1 ++ l2 ++ l3)%list, l4
    end.
    split; [|split].
    + cbn. rewrite <- !app_assoc. reflexivity.
    + intros c H. destruct Hev as [->|(lb & ub & ->)]; in_inv H.
    + intros c H. in_inv H.
  - unfold check_snes_convergence. reflexivity.
  - apply store_same.
  - reflexivity.
  - reflexivity.
Qed.

(** [solve] keeps the solver on its problem and its engine on its DM. *)
Lemma solve_preserves_dm bounds (w : World Vec) :
  snes_dm (snes (out_world (solve bounds w))) = snes_dm (snes w) /\
  _problem (out_world (solve bounds w)) = _problem w.
Proof.
  rewrite solve_run. cbv zeta.
  destruct (chain_coefficients _) as [cs|e]; [|split; reflexivity].
  rewrite register_bounds_run, prepared_eq.
  destruct bounds as [[lower upper]|].
  - destruct (py_dat lower) as [il|e]; [|split; reflexivity].
    destruct (py_dat upper) as [iu|e]; [|split; reflexivity].
    destruct (engine_setVariableBounds _ _ _) as [[]|e]; [|split; reflexivity].
    project. destruct (engine_solve _ _ _ _) as [[d1 x1] [r|e]]; split; reflexivity.
  - project. destruct (engine_solve _ _ _ _) as [[d1 x1] [r|e]]; split; reflexivity.
Qed.

(** *** The contexts attached by a run *)

Lemma attached_app (l1 l2 : list (Event Vec)) :
  attached (l1 ++ l2) = attached l1 ++ attached l2.
Proof. apply flat_map_app. Qed.

Lemma attached_apply (i : nat) (l : list DirichletBC) :
  attached (map (fun b => EvApply (Vec := Vec) b i) l) = [].
Proof. induction l; [reflexivity|exact IHl]. Qed.

Lemma attached_exit (l : list Scope) : attached (map (EvExit (Vec := Vec)) l) = [].
Proof. induction l; [reflexivity|exact IHl]. Qed.

Lemma attached_staged (w : World Vec) (dms : list DM) :
  attached (map (EvEnter (Vec := Vec)) (staged w dms)) = dms.
Proof.
  unfold staged. rewrite map_cons, map_app.
  change (attached (EvEnter inserted_options :: ?l)) with (attached l).
  rewrite attached_app.
  assert (H1 : forall l, attached
             (map (EvEnter (Vec := Vec)) (map (fun d => add_hooks d (_ctx w)) l)) = l).
  { induction l as [|d l IH]; [reflexivity|]. cbn. f_equal. exact IH. }
  assert (H2 : forall l, attached
             (map (EvEnter (Vec := Vec)) (map transfer_operator l)) = []).
  { induction l as [|t l IH]; [reflexivity|exact IH]. }
  rewrite H1, H2. apply app_nil_r.
Qed.

Lemma attached_nil : attached (@nil (Event Vec)) = [].
Proof. reflexivity. Qed.

Lemma attached_set_function c (l : list (Event Vec)) :
  attached (EvSetFunction c :: l) = attached l.
Proof. reflexivity. Qed.

Lemma attached_set_jacobian c (l : list (Event Vec)) :
  attached (EvSetJacobian c :: l) = attached l.
Proof. reflexivity. Qed.

Lemma attached_solve x0 x1 r (l : list (Event Vec)) :
  attached (EvSnesSolve x0 x1 r :: l) = attached l.
Proof. reflexivity. Qed.

Lemma attached_check (l : list (Event Vec)) :
  attached (EvCheckConvergence :: l) = attached l.
Proof. reflexivity. Qed.

Lemma attached_cleanup c (l : list (Event Vec)) :
  attached (EvGarbageCleanup c :: l) = attached l.
Proof. reflexivity. Qed.

Create Rewrite HintDb attached_db.
#[local] Hint Rewrite attached_app attached_apply attached_exit attached_staged
  attached_nil attached_set_function attached_set_jacobian attached_solve
  attached_check attached_cleanup app_nil_r : attached_db.

Lemma attached_bounds bounds (w : World Vec) :
  attached (out_events (register_bounds bounds w)) = [].
Proof.
  destruct (register_bounds_frame bounds w) as ([->|(lb & ub & ->)] & _); reflexivity.
Qed.

(** A run attaches nothing (it stopped before staging) or attaches the
    discretizations enumerated at lines 259-263, in that order. *)
Lemma solve_attached bounds (w : World Vec) :
  attached (out_events (solve bounds w)) = [] \/
  exists cs,
    chain_coefficients [F (_problem w); J (_problem w); Jp (_problem w)] = Ok cs /\
    attached (out_events (solve bounds w)) = problem_dms cs (snes_dm (snes w)).
Proof.
  rewrite solve_run. cbv zeta.
  destruct (chain_coefficients _) as [cs|e]; [|left; reflexivity].
  pose proof (attached_bounds bounds (prepared bc_apply w)) as Hb.
  destruct (register_bounds bounds (prepared bc_apply w)) as [[[[]|e] w3] evb].
  2:{ left. project. project_in Hb. autorewrite with attached_db.
      rewrite Hb. reflexivity. }
  right. exists cs. split; [reflexivity|]. project. project_in Hb.
  destruct (engine_solve _ _ _ _) as [[d1 x1] [r|e]]; project.
  2:{ autorewrite with attached_db. rewrite Hb. reflexivity. }
  destruct (r <? 0)%Z; autorewrite with attached_db; rewrite Hb; reflexivity.
Qed.

(** When the engine is called, the contexts are attached. *)
Lemma solve_engine_called_attached bounds (w : World Vec) x0 x1 r :
  In (EvSnesSolve x0 x1 r) (out_events (solve bounds w)) ->
  attached (out_events (solve bounds w)) <> [].
Proof.
  intros H. destruct (solve_attached bounds w) as [Hnil|(cs & Hcs & ->)].
  - exfalso. revert H Hnil. rewrite solve_run. cbv zeta.
    destruct (chain_coefficients _) as [cs|e]; [|intros H; in_inv H].
    pose proof (register_bounds_frame bounds (prepared bc_apply w)) as (Hev & _).
    pose proof (attached_bounds bounds (prepared bc_apply w)) as Hb.
    destruct (register_bounds bounds (prepared bc_apply w)) as [[[[]|e] w3] evb].
    2:{ project. project_in Hev. intros H.
        destruct Hev as [->|(lb & ub & ->)]; in_inv H. }
    project. project_in Hb.
    destruct (engine_solve _ _ _ _) as [[d1 x1'] [r'|e]]; project; intros _.
    2:{ autorewrite with attached_db. rewrite Hb. unfold problem_dms. cbn.
        intros Hnil. apply app_eq_nil in Hnil as [_ Hnil]. discriminate Hnil. }
    destruct (r' <? 0)%Z; autorewrite with attached_db; rewrite Hb;
      unfold problem_dms; cbn; intros Hnil;
      apply app_eq_nil in Hnil as [_ Hnil]; discriminate Hnil.
  - unfold problem_dms. intros E. apply app_eq_nil in E as [_ E]. discriminate E.
Qed.

(** *** The claims about [solve] *)

(** C1 (amended): after a collective solve that the engine completed, the
    garbage cleanup on the communicator of the unknown's mesh is the last
    call of [solve] when the convergence check passes; when the check
    fails with the divergence error, [solve] raises without reaching the
    cleanup. *)
Theorem C1_cleanup_after_converged_solve bounds (w : World Vec) x0 x1 r :
  In (EvSnesSolve x0 x1 (Ok r)) (out_events (solve bounds w)) ->
  let o := solve bounds w in
  let comm := fs_comm (function_space (u (_problem w))) in
  ((0 <= r)%Z ->
     out_result o = Ok tt /\
     exists before,
       out_events o = before ++ [EvGarbageCleanup comm] /\
       In (EvSnesSolve x0 x1 (Ok r)) before /\
       forall c, ~ In (EvGarbageCleanup c) before) /\
  ((r < 0)%Z ->
     out_result o = Raise (ConvergenceError r) /\
     forall c, ~ In (EvGarbageCleanup c) (out_events o)).
Proof.
  intros H. cbv zeta.
  destruct (solve_completed bounds w x0 x1 r H)
    as ((pre & mid & Hev & Hpre & Hmid) & Hres & _).
  rewrite Hev, Hres. split; intros Hr.
  - apply Z.ltb_ge in Hr. rewrite Hr. split; [reflexivity|].
    exists (pre ++ EvSnesSolve x0 x1 (Ok r) :: mid ++ [EvCheckConvergence]).
    split; [|split].
    + rewrite <- !app_assoc. cbn. rewrite <- !app_assoc. reflexivity.
    + apply in_or_app. right. left. reflexivity.
    + intros c Hc. apply in_app_or in Hc as [Hc|[Hc|Hc]].
      * exact (Hpre c Hc).
      * discriminate Hc.
      * apply in_app_or in Hc as [Hc|[Hc|[]]]; [exact (Hmid c Hc)|discriminate Hc].
  - apply Z.ltb_lt in Hr. rewrite Hr. split; [reflexivity|].
    intros c Hc. apply in_app_or in Hc as [Hc|[Hc|Hc]].
    + exact (Hpre c Hc).
    + discriminate Hc.
    + apply in_app_or in Hc as [Hc|[Hc|[]]]; [exact (Hmid c Hc)|discriminate Hc].
Qed.

(** C3 (amended): whenever a call of [solve] attaches discretization
    contexts, the sequence attached is the discretizations of the function
    spaces of the coefficients of the forms F, J, Jp that are not [None],
    one entry per distinct space (so a discretization shared by two spaces
    is entered once for each) and the spaces on the solution's
    discretization left out, followed by the solution's discretization,
    which is therefore attached last and exactly once. *)
Theorem C3_solution_dm_attached_last bounds (w : World Vec) :
  let o := solve bounds w in
  let p := _problem w in
  let solution_dm := snes_dm (snes w) in
  attached (out_events o) <> [] ->
  exists Vs,
    attached (out_events o) = map fs_dm Vs ++ [solution_dm] /\
    last (attached (out_events o)) 0%nat = solution_dm /\
    NoDup Vs /\
    ~ In solution_dm (map fs_dm Vs) /\
    forall V, In V Vs <->
              fs_dm V <> solution_dm /\
              exists f c, In (PyForm f) [F p; J p; Jp p] /\
                          In c (coefficients f) /\
                          coeff_function_space c = V.
Proof.
  cbv zeta. intros Hne.
  destruct (solve_attached bounds w) as [Hnil|(cs & Hcs & Hat)]; [contradiction|].
  destruct (problem_dms_spec cs (snes_dm (snes w))) as (Vs & HVs & Hnd & Hnot & HIn).
  exists Vs. rewrite Hat, HVs. split; [reflexivity|]. split; [apply last_last|].
  split; [exact Hnd|]. split; [exact Hnot|].
  intros V. rewrite HIn. split.
  - intros [Hd (c & Hc & HV)]. split; [exact Hd|].
    apply (chain_coefficients_In _ _ Hcs) in Hc as (f & Hf & Hc).
    exists f, c. auto.
  - intros [Hd (f & c & Hf & Hc & HV)]. split; [exact Hd|].
    exists c. split; [|exact HV].
    apply (chain_coefficients_In _ _ Hcs). exists f. auto.
Qed.

(** C4: when the engine's solve completes with a negative (diverged)
    reason, [solve] raises the divergence error carrying that reason, and
    the unknown already holds the engine's last iterate, copied back from
    the work vector. *)
Theorem C4_divergence_keeps_last_iterate bounds (w : World Vec) x0 x1 r :
  In (EvSnesSolve x0 x1 (Ok r)) (out_events (solve bounds w)) ->
  (r < 0)%Z ->
  let o := solve bounds w in
  out_result o = Raise (ConvergenceError r) /\
  dat (out_world o) (fn_id (u (_problem w))) = x1 /\
  _work (out_world o) = x1.
Proof.
  intros H Hr. cbv zeta.
  destruct (solve_completed bounds w x0 x1 r H) as (_ & Hres & Hu & Hw & _).
  apply Z.ltb_lt in Hr. rewrite Hr in Hres. auto.
Qed.

(** C8: every call of [solve] starts by registering the residual and the
    Jacobian callbacks of this solver's context on the engine, so both
    registrations precede every context entered on the stack; the engine
    is left with these callbacks, and rebinding twice is rebinding once. *)
Theorem C8_callbacks_rebound_first bounds (w : World Vec) :
  let o := solve bounds w in
  (exists rest,
     out_events o = EvSetFunction (_ctx w) :: EvSetJacobian (_ctx w) :: rest) /\
  (forall pre s post,
     out_events o = pre ++ EvEnter s :: post ->
     exists pre',
       pre = EvSetFunction (_ctx w) :: EvSetJacobian (_ctx w) :: pre') /\
  snes_function (snes (out_world o)) = Some (_ctx w) /\
  snes_jacobian (snes (out_world o)) = Some (_ctx w) /\
  out_world (bind rebind (fun _ => rebind) w) = out_world (rebind w).
Proof.
  cbv zeta.
  assert (Hfirst : exists rest,
    out_events (solve bounds w) =
      EvSetFunction (_ctx w) :: EvSetJacobian (_ctx w) :: rest).
  { rewrite solve_run. cbv zeta.
    destruct (chain_coefficients _) as [cs|e]; [|eexists; reflexivity].
    destruct (register_bounds bounds (prepared bc_apply w)) as [[[[]|e] w3] evb];
      project; [|eexists; reflexivity].
    destruct (engine_solve _ _ _ _) as [[d1 x1] [r|e]]; eexists; reflexivity. }
  split; [exact Hfirst|]. split; [|split; [|split]].
  - destruct Hfirst as (rest & ->). intros pre s post E.
    destruct pre as [|a [|b pre']]; cbn in E; try discriminate E.
    injection E as <- <- _. eexists. reflexivity.
  - rewrite solve_run. cbv zeta.
    destruct (chain_coefficients _) as [cs|e]; [|reflexivity].
    pose proof (register_bounds_frame bounds (prepared bc_apply w))
      as (_ & _ & _ & Hf & _).
    rewrite prepared_eq in Hf at 2.
    destruct (register_bounds bounds (prepared bc_apply w)) as [[[[]|e] w3] evb];
      project; project_in Hf; [|exact Hf].
    destruct (engine_solve _ _ _ _) as [[d1 x1] [r|e]]; exact Hf.
  - rewrite solve_run. cbv zeta.
    destruct (chain_coefficients _) as [cs|e]; [|reflexivity].
    pose proof (register_bounds_frame bounds (prepared bc_apply w))
      as (_ & _ & _ & _ & Hj).
    rewrite prepared_eq in Hj at 2.
    destruct (register_bounds bounds (prepared bc_apply w)) as [[[[]|e] w3] evb];
      project; project_in Hj; [|exact Hj].
    destruct (engine_solve _ _ _ _) as [[d1 x1] [r|e]]; exact Hj.
  - erewrite bind_ok by apply rebind_run. rewrite !rebind_run. reflexivity.
Qed.

(** C10: once the engine's solve has completed and the result is copied
    back, the solver's [_setup] flag is true when [solve] ends, also when
    the convergence check that follows raises the divergence error. *)
Theorem C10_setup_set_before_convergence_check bounds (w : World Vec) x0 x1 r :
  In (EvSnesSolve x0 x1 (Ok r)) (out_events (solve bounds w)) ->
  let o := solve bounds w in
  _setup (out_world o) = true /\
  ((r < 0)%Z -> out_result o = Raise (ConvergenceError r)) /\
  exists pre post,
    out_events o = pre ++ EvCheckConvergence :: post /\
    In (EvSnesSolve x0 x1 (Ok r)) pre.
Proof.
  intros H. cbv zeta.
  destruct (solve_completed bounds w x0 x1 r H)
    as ((pre & mid & Hev & _) & Hres & _ & _ & Hs).
  split; [exact Hs|]. split.
  - intros Hr. apply Z.ltb_lt in Hr. rewrite Hr in Hres. exact Hres.
  - exists (pre ++ EvSnesSolve x0 x1 (Ok r) :: mid). eexists. split.
    + rewrite Hev. rewrite <- app_assoc. reflexivity.
    + apply in_or_app. right. left. reflexivity.
Qed.

Lemma py_dat_raise (o : pyobj) (e : exn) :
  py_dat o = Raise e -> exists msg, e = AttributeError msg.
Proof.
  destruct o as [|f|fn|fn|n t|n i]; cbn; try destruct (form_dat f);
    intros H; try discriminate H; injection H as <-; eexists; reflexivity.
Qed.

(** C9 (amended): with bounds supplied on a validated problem, [solve]
    validates nothing itself: it only looks up [.dat] on each bound.  A
    bound without that attribute makes [solve] fail with an
    [AttributeError] before anything is registered or solved; any two
    objects that have it are read and handed to the engine's
    [setVariableBounds]; what the engine raises there, or later in its
    solve, is what [solve] raises, and accepted bounds are in force when the
    engine solves. *)
Theorem C9_bounds_registered_and_engine_errors_surface
    (w : World Vec) (lower upper : pyobj) (cs : list Coefficient) :
  chain_coefficients [F (_problem w); J (_problem w); Jp (_problem w)] = Ok cs ->
  let o := solve (Some (lower, upper)) w in
  let w2 := prepared bc_apply w in
  ((forall i, py_dat lower <> Ok i) \/ (forall i, py_dat upper <> Ok i) ->
     (exists msg, out_result o = Raise (AttributeError msg)) /\
     (forall lb ub, ~ In (EvSetVariableBounds lb ub) (out_events o)) /\
     (forall x0 x1 r, ~ In (EvSnesSolve x0 x1 r) (out_events o))) /\
  (forall il iu,
     py_dat lower = Ok il -> py_dat upper = Ok iu ->
     let lb := dat w2 il in
     let ub := dat w2 iu in
     In (EvSetVariableBounds lb ub) (out_events o) /\
     (forall e,
        engine_setVariableBounds (snes w2) lb ub = Raise e ->
        out_result o = Raise e /\
        forall x0 x1 r, ~ In (EvSnesSolve x0 x1 r) (out_events o)) /\
     (engine_setVariableBounds (snes w2) lb ub = Ok tt ->
        snes_bounds (snes (out_world o)) = Some (lb, ub) /\
        exists pre post x1 r,
          out_events o = pre ++ EvSetVariableBounds lb ub :: post /\
          In (EvSnesSolve (dat w2 (fn_id (u (_problem w)))) x1 r) post)) /\
  (forall x0 x1 e,
     In (EvSnesSolve x0 x1 (Raise e)) (out_events o) -> out_result o = Raise e).
Proof.
  intros Hcs. cbv zeta. rewrite solve_run. cbv zeta. rewrite Hcs.
  rewrite register_bounds_run.
  set (w2 := prepared bc_apply w).
  destruct (py_dat lower) as [il|e] eqn:Hl.
  2:{ project. split; [|split].
      - intros _. destruct (py_dat_raise _ _ Hl) as (msg & ->).
        split; [eexists; reflexivity|].
        split; intros; intros H; in_inv H.
      - intros il iu Hil. discriminate Hil.
      - intros x0 x1 e' H. in_inv H. }
  destruct (py_dat upper) as [iu|e] eqn:Hu.
  2:{ project. split; [|split].
      - intros _. destruct (py_dat_raise _ _ Hu) as (msg & ->).
        split; [eexists; reflexivity|].
        split; intros; intros H; in_inv H.
      - intros il' iu' _ Hiu. discriminate Hiu.
      - intros x0 x1 e' H. in_inv H. }
  split; [intros [H|H]; [destruct (H il eq_refl)|destruct (H iu eq_refl)]|].
  destruct (engine_setVariableBounds (snes w2) (dat w2 il) (dat w2 iu))
    as [[]|e] eqn:Hb; project.
  2:{ split.
      - intros il' iu' Hil Hiu. injection Hil as <-. injection Hiu as <-.
        rewrite Hb. split; [|split].
        + in_find.
        + intros e' He. injection He as <-. split; [reflexivity|].
          intros x0 x1 r H. in_inv H.
        + intros He. discriminate He.
      - intros x0 x1 e' H. in_inv H. }
  destruct (engine_solve _ _ _ _) as [[d1 x1] [r|e]] eqn:Hs; project.
  - split.
    + intros il' iu' Hil Hiu. injection Hil as <-. injection Hiu as <-.
      rewrite Hb. split; [|split].
      * in_find.
      * intros e' He. discriminate He.
      * intros _. split; [reflexivity|].
        match goal with
        | |- exists pre post x r', (?a :: ?b :: ?l1 ++ [?e]) ++ ?rest = _ /\ _ =>
            exists (a :: b :: l1), rest, x1, (Ok r)
        end.
        split; [cbn; rewrite <- app_assoc; reflexivity|in_find].
    + intros x0 x1' e' H. destruct (r <? 0)%Z; in_inv H.
  - split.
    + intros il' iu' Hil Hiu. injection Hil as <-. injection Hiu as <-.
      rewrite Hb. split; [|split].
      * in_find.
      * intros e' He. discriminate He.
      * intros _. split; [reflexivity|].
        match goal with
        | |- exists pre post x r', (?a :: ?b :: ?l1 ++ [?e0]) ++ ?rest = _ /\ _ =>
            exists (a :: b :: l1), rest, x1, (Raise e)
        end.
        split; [cbn; rewrite <- app_assoc; reflexivity|in_find].
    + intros x0 x1' e' H. in_inv H. injection H as _ _ <-. reflexivity.
Qed.

End Runs.

(** * The claims on the concrete solver *)

Ltac in_now := vm_compute; repeat first [left; reflexivity | right].

(** C1, as stated, fails: from the initial guess -1 the engine completes its
    solve with the diverged reason -5, [solve] raises the divergence error
    and no garbage cleanup is called. *)
Lemma C1_cleanup_skipped_on_divergence :
  let o := solve Example.engine Example.accepts_bounds Example.pin_apply None
             (Example.solver (-1)) in
  In (EvSnesSolve (-1)%Z (-2)%Z (Ok (-5)%Z)) (out_events o) /\
  out_result o = Raise (ConvergenceError (-5)) /\
  forall c, ~ In (EvGarbageCleanup c) (out_events o).
Proof.
  cbv zeta. split; [in_now|]. split; [reflexivity|].
  intros c H. vm_compute in H.
  repeat (destruct H as [H|H]; [discriminate H|]). exact H.
Qed.

Lemma C1_witness :
  let o := solve Example.engine Example.accepts_bounds Example.pin_apply None
             (Example.solver 1) in
  In (EvSnesSolve 1%Z 2%Z (Ok 3%Z)) (out_events o) /\
  (0 <= 3)%Z /\
  out_result o = Ok tt /\
  exists before,
    out_events o = before ++ [EvGarbageCleanup 1] /\
    In (EvSnesSolve 1%Z 2%Z (Ok 3%Z)) before /\
    forall c, ~ In (EvGarbageCleanup c) before.
Proof.
  cbv zeta.
  assert (H : In (EvSnesSolve 1%Z 2%Z (Ok 3%Z))
                (out_events (solve Example.engine Example.accepts_bounds
                               Example.pin_apply None (Example.solver 1))))
    by in_now.
  assert (Hr : (0 <= 3)%Z) by lia.
  split; [exact H|]. split; [exact Hr|].
  exact (proj1 (C1_cleanup_after_converged_solve Example.engine
                  Example.accepts_bounds Example.pin_apply None
                  (Example.solver 1) 1%Z 2%Z 3%Z H) Hr).
Defined.

Lemma C3_witness :
  let o := solve Example.engine Example.accepts_bounds Example.pin_apply None
             (Example.solver 1) in
  attached (out_events o) = [8; 7]%nat /\
  exists Vs,
    attached (out_events o) = map fs_dm Vs ++ [7%nat] /\
    last (attached (out_events o)) 0%nat = 7%nat /\
    NoDup Vs /\
    ~ In 7%nat (map fs_dm Vs) /\
    forall V, In V Vs <->
              fs_dm V <> 7%nat /\
              exists f c,
                In (PyForm f) [PyForm Example.residual; PyForm Example.bilinear; PyNone] /\
                In c (coefficients f) /\
                coeff_function_space c = V.
Proof.
  cbv zeta. split; [reflexivity|].
  apply (C3_solution_dm_attached_last Example.engine Example.accepts_bounds
           Example.pin_apply None (Example.solver 1)).
  vm_compute. discriminate.
Defined.

(** C3, as stated, fails: with two distinct coefficient spaces on the same
    DM, that discretization is attached twice; the discretizations attached
    are not deduplicated. *)
Lemma C3_shared_dm_attached_twice :
  let o := solve Example.engine Example.accepts_bounds Example.pin_apply None
             (Shared.solver 1) in
  NonlinearVariationalProblem_init Example.derive
    (PyForm Shared.residual) (PyFunction Example.uf) None PyNone PyNone None false
  = Ok Shared.problem /\
  fs_dm Example.W = fs_dm Shared.W2 /\
  attached (out_events o) = [8; 8; 7]%nat /\
  ~ NoDup (removelast (attached (out_events o))).
Proof.
  cbv zeta. split; [reflexivity|]. split; [reflexivity|]. split; [reflexivity|].
  intros H.
  assert (E : removelast (attached (out_events
                (solve Example.engine Example.accepts_bounds Example.pin_apply None
                   (Shared.solver 1)))) = [8; 8]%nat) by reflexivity.
  rewrite E in H. inversion H as [|x l Hin _]. apply Hin. left. reflexivity.
Qed.

Lemma C4_witness :
  let o := solve Example.engine Example.accepts_bounds Example.pin_apply None
             (Example.solver (-1)) in
  In (EvSnesSolve (-1)%Z (-2)%Z (Ok (-5)%Z)) (out_events o) /\
  (-5 < 0)%Z /\
  out_result o = Raise (ConvergenceError (-5)) /\
  dat (out_world o) 0%nat = (-2)%Z /\
  _work (out_world o) = (-2)%Z.
Proof.
  cbv zeta.
  assert (H : In (EvSnesSolve (-1)%Z (-2)%Z (Ok (-5)%Z))
                (out_events (solve Example.engine Example.accepts_bounds
                               Example.pin_apply None (Example.solver (-1)))))
    by in_now.
  assert (Hr : (-5 < 0)%Z) by lia.
  split; [exact H|]. split; [exact Hr|].
  exact (C4_divergence_keeps_last_iterate Example.engine Example.accepts_bounds
           Example.pin_apply None (Example.solver (-1)) (-1)%Z (-2)%Z (-5)%Z H Hr).
Defined.

Lemma C8_witness :
  let o := solve Example.engine Example.accepts_bounds Example.pin_apply None
             (Example.solver 1) in
  exists post pre',
    out_events o = [EvSetFunction 0; EvSetJacobian 0] ++ EvEnter inserted_options :: post /\
    [EvSetFunction (Vec := Z) 0; EvSetJacobian 0] =
      EvSetFunction 0 :: EvSetJacobian 0 :: pre'.
Proof.
  cbv zeta. eexists.
  assert (E : out_events (solve Example.engine Example.accepts_bounds
                            Example.pin_apply None (Example.solver 1))
              = [EvSetFunction 0; EvSetJacobian 0] ++ EvEnter inserted_options :: _)
    by (vm_compute; reflexivity).
  destruct (proj1 (proj2 (C8_callbacks_rebound_first Example.engine
                            Example.accepts_bounds Example.pin_apply None
                            (Example.solver 1))) _ _ _ E) as (pre' & Hpre).
  exists pre'. split; [exact E|exact Hpre].
Defined.

Lemma C10_witness :
  let o := solve Example.engine Example.accepts_bounds Example.pin_apply None
             (Example.solver (-1)) in
  _setup (Example.solver (-1)) = false /\
  In (EvSnesSolve (-1)%Z (-2)%Z (Ok (-5)%Z)) (out_events o) /\
  _setup (out_world o) = true /\
  out_result o = Raise (ConvergenceError (-5)).
Proof.
  cbv zeta.
  assert (H : In (EvSnesSolve (-1)%Z (-2)%Z (Ok (-5)%Z))
                (out_events (solve Example.engine Example.accepts_bounds
                               Example.pin_apply None (Example.solver (-1)))))
    by in_now.
  split; [reflexivity|]. split; [exact H|].
  destruct (C10_setup_set_before_convergence_check Example.engine
              Example.accepts_bounds Example.pin_apply None (Example.solver (-1))
              (-1)%Z (-2)%Z (-5)%Z H) as (Hs & Hr & _).
  split; [exact Hs|]. apply Hr. lia.
Defined.

(** C9, as stated, fails: two objects that are neither a [Function] nor a
    [Vector] but carry a [.dat] are taken as bounds without any validation,
    registered with the engine, and the solve goes through. *)
Lemma C9_unvalidated_bounds_are_registered :
  let lower := PyCarrier "Mock" 1 in
  let upper := PyCarrier "Mock" 2 in
  let o := solve Example.engine Example.accepts_bounds Example.pin_apply
             (Some (lower, upper)) (Example.solver 1) in
  (forall fn, lower <> PyFunction fn /\ lower <> PyVector fn) /\
  (forall fn, upper <> PyFunction fn /\ upper <> PyVector fn) /\
  In (EvSetVariableBounds 0%Z 10%Z) (out_events o) /\
  snes_bounds (snes (out_world o)) = Some (0%Z, 10%Z) /\
  out_result o = Ok tt.
Proof.
  cbv zeta. split; [intros fn; split; discriminate|].
  split; [intros fn; split; discriminate|].
  split; [in_now|]. split; reflexivity.
Qed.

Lemma C9_witness :
  let fields := Some (PyFunction Example.lowf, PyFunction Example.upf) in
  let o1 := solve Example.engine Example.accepts_bounds Example.pin_apply
              (Some (PyFunction Example.lowf, PyOther "float" true))
              (Example.solver 1) in
  let o2 := solve Example.engine Example.refuses_bounds Example.pin_apply fields
              (Example.solver 1) in
  let o3 := solve Example.engine Example.accepts_bounds Example.pin_apply fields
              (Example.solver 1) in
  ((exists msg, out_result o1 = Raise (AttributeError msg)) /\
   (forall lb ub, ~ In (EvSetVariableBounds lb ub) (out_events o1)) /\
   (forall x0 x1 r, ~ In (EvSnesSolve x0 x1 r) (out_events o1))) /\
  (In (EvSetVariableBounds 0%Z 10%Z) (out_events o2) /\
   out_result o2 = Raise (ExternalError 56)) /\
  (In (EvSetVariableBounds 0%Z 10%Z) (out_events o3) /\
   snes_bounds (snes (out_world o3)) = Some (0%Z, 10%Z)).
Proof.
  cbv zeta.
  pose (cs := [Example.c_u; Example.c_k; Example.c_u; Example.c_k]).
  split; [|split].
  - refine (proj1 (C9_bounds_registered_and_engine_errors_surface Example.engine
              Example.accepts_bounds Example.pin_apply (Example.solver 1)
              (PyFunction Example.lowf) (PyOther "float" true) cs eq_refl) _).
    right. intros i. discriminate.
  - destruct (proj1 (proj2 (C9_bounds_registered_and_engine_errors_surface
              Example.engine Example.refuses_bounds Example.pin_apply
              (Example.solver 1) (PyFunction Example.lowf) (PyFunction Example.upf)
              cs eq_refl)) 1%nat 2%nat eq_refl eq_refl) as (Hin & Hraise & _).
    split; [exact Hin|]. exact (proj1 (Hraise (ExternalError 56) eq_refl)).
  - destruct (proj1 (proj2 (C9_bounds_registered_and_engine_errors_surface
              Example.engine Example.accepts_bounds Example.pin_apply
              (Example.solver 1) (PyFunction Example.lowf) (PyFunction Example.upf)
              cs eq_refl)) 1%nat 2%nat eq_refl eq_refl) as (Hin & _ & Hok).
    split; [exact Hin|]. exact (proj1 (Hok eq_refl)).
Defined.

(** * Further properties of the validation code *)

Section StyleCheckMore.

Lemma styles_agree_or_all_disagree (declared : bool) (ss : list bool) :
  (exists s, In s ss /\ s = declared) \/ (forall s, In s ss -> s = negb declared).
Proof.
  induction ss as [|s ss IH].
  - right. intros s [].
  - destruct (Bool.bool_dec s declared) as [E|N].
    + left. exists s. split; [left; reflexivity|exact E].
    + destruct IH as [(t & Ht & Et)|Hall].
      * left. exists t. split; [right; exact Ht|exact Et].
      * right. intros t [<-|Ht]; [|apply Hall, Ht].
        destruct s, declared; try reflexivity; exfalso; apply N; reflexivity.
Qed.

(** X1: the style check passes exactly when there is no non-Dirichlet
    condition at all, or at least one of them has the declared style. *)
Theorem X1_style_check_passes_iff (declared : bool) (l : list BC) :
  is_form_consistent declared l = Ok tt <->
  non_dirichlet_styles l = [] \/
  exists s, In s (non_dirichlet_styles l) /\ s = declared.
Proof.
  pose proof (is_form_consistent_raises_iff declared l) as Hr.
  destruct (is_form_consistent_cases declared l) as [Hok|Hraise].
  - rewrite Hok. split; [intros _|reflexivity].
    destruct (non_dirichlet_styles l) as [|s0 ss] eqn:Hs; [left; reflexivity|].
    right. destruct (styles_agree_or_all_disagree declared (s0 :: ss)) as [H|H];
      [exact H|].
    exfalso. assert (Hc : Ok tt = Raise (TypeError style_mismatch_msg) :> result unit).
    { rewrite <- Hok. apply Hr. split; [discriminate|exact H]. }
    discriminate Hc.
  - rewrite Hraise. split; [discriminate|].
    apply Hr in Hraise as [Hne Hall]. intros [Hnil|(s & Hs & ->)].
    + contradiction.
    + apply Hall in Hs. destruct declared; discriminate Hs.
Qed.

Lemma non_dirichlet_styles_app (l1 l2 : list BC) :
  non_dirichlet_styles (l1 ++ l2) = non_dirichlet_styles l1 ++ non_dirichlet_styles l2.
Proof. unfold non_dirichlet_styles. rewrite filter_app, map_app. reflexivity. Qed.

(** X2: a [DirichletBC] placed anywhere in the set does not change the
    outcome of the style check. *)
Theorem X2_dirichlet_condition_does_not_change_style_check
    (declared : bool) (l1 l2 : list BC) (d : DirichletBC) :
  is_form_consistent declared (l1 ++ BC_Dirichlet d :: l2) =
  is_form_consistent declared (l1 ++ l2).
Proof.
  unfold is_form_consistent. rewrite !non_dirichlet_styles_app. reflexivity.
Qed.

(** X3: boundary conditions that are all [DirichletBC] (in particular no
    boundary conditions, or [None]) pass the style check under either
    declared style. *)
Theorem X3_pure_dirichlet_sets_pass (declared : bool) (given : option (list BC)) :
  forallb is_DirichletBC (_extract_bcs given) = true ->
  is_form_consistent declared (_extract_bcs given) = Ok tt.
Proof.
  intros H.
  assert (Hnil : non_dirichlet_styles (_extract_bcs given) = []).
  { unfold non_dirichlet_styles.
    induction (_extract_bcs given) as [|bc l IH]; [reflexivity|].
    cbn in H. apply andb_true_iff in H as [Hbc Hl].
    cbn. rewrite Hbc. cbn. apply IH, Hl. }
  unfold is_form_consistent. rewrite Hnil. destruct declared; reflexivity.
Qed.

Lemma X3_witness :
  forallb is_DirichletBC (_extract_bcs (Some [BC_Dirichlet Example.pin])) = true /\
  is_form_consistent true (_extract_bcs (Some [BC_Dirichlet Example.pin])) = Ok tt.
Proof.
  split; [reflexivity|].
  exact (X3_pure_dirichlet_sets_pass true (Some [BC_Dirichlet Example.pin]) eq_refl).
Defined.

End StyleCheckMore.

Section ConstructionMore.

Variable derivative : pyobj -> Function -> result pyobj.

Local Abbreviation init := (NonlinearVariationalProblem_init derivative).

Lemma check_pde_args_ok_inv (F0 J1 Jp0 : pyobj) :
  check_pde_args F0 J1 Jp0 = Ok tt ->
  (exists f, F0 = PyForm f /\ List.length (arguments f) = 1%nat) /\
  (exists j, J1 = PyForm j /\ List.length (arguments j) = 2%nat) /\
  (Jp0 = PyNone \/
   exists jp, Jp0 = PyForm jp /\ List.length (arguments jp) = 2%nat).
Proof.
  unfold check_pde_args. intros H.
  destruct F0 as [|f|fn|fn|n t|n i]; try discriminate H. cbn in H.
  destruct (Nat.eqb_spec (List.length (arguments f)) 1) as [Hf|Hf];
    [|discriminate H]. cbn in H.
  destruct J1 as [|j|fn|fn|n t|n i]; try discriminate H. cbn in H.
  destruct (Nat.eqb_spec (List.length (arguments j)) 2) as [Hj|Hj];
    [|discriminate H]. cbn in H.
  split; [exists f; auto|]. split; [exists j; auto|].
  destruct Jp0 as [|jp|fn|fn|n t|n i]; try discriminate H; [left; reflexivity|].
  cbn in H.
  destruct (Nat.eqb_spec (List.length (arguments jp)) 2) as [Hp|Hp];
    [|discriminate H].
  right. exists jp. auto.
Qed.

(** X4: [check_pde_args] accepts exactly a residual that is a form with one
    argument, a Jacobian that is a form with two, and a preconditioner that
    is [None] or a form with two. *)
Theorem X4_check_pde_args_accepts_iff (F0 J1 Jp0 : pyobj) :
  check_pde_args F0 J1 Jp0 = Ok tt <->
  (exists f, F0 = PyForm f /\ List.length (arguments f) = 1%nat) /\
  (exists j, J1 = PyForm j /\ List.length (arguments j) = 2%nat) /\
  (Jp0 = PyNone \/
   exists jp, Jp0 = PyForm jp /\ List.length (arguments jp) = 2%nat).
Proof.
  split.
  - apply check_pde_args_ok_inv.
  - intros ((f & -> & Hf) & (j & -> & Hj) & HJp).
    apply check_pde_args_ok; assumption.
Qed.

(** X5: [check_pde_args] returns or raises a [TypeError] or a [ValueError];
    the attribute lookups it makes never fail, because each follows the
    [isinstance] test of the same object. *)
Theorem X5_check_pde_args_raises_type_or_value_errors (F0 J1 Jp0 : pyobj) :
  check_pde_args F0 J1 Jp0 = Ok tt \/
  TypeKind (check_pde_args F0 J1 Jp0) \/
  ArityKind (check_pde_args F0 J1 Jp0).
Proof.
  unfold check_pde_args, TypeKind, ArityKind.
  destruct F0 as [|f|fn|fn|n t|n i]; cbn; try (right; left; eexists; reflexivity).
  destruct (List.length (arguments f) =? 1)%nat; cbn;
    [|right; right; eexists; reflexivity].
  destruct J1 as [|j|fn|fn|n t|n i]; cbn; try (right; left; eexists; reflexivity).
  destruct (List.length (arguments j) =? 2)%nat; cbn;
    [|right; right; eexists; reflexivity].
  destruct Jp0 as [|jp|fn|fn|n t|n i]; cbn; try (right; left; eexists; reflexivity);
    [left; reflexivity|].
  destruct (List.length (arguments jp) =? 2)%nat; cbn;
    [left; reflexivity|right; right; eexists; reflexivity].
Qed.

(** X6: a problem that was constructed is well formed: its residual is a
    form with one argument, its Jacobian a form with exactly two arguments
    (so both argument positions the solver reads exist), its preconditioner
    [None] or a form with two; [Jp_eq_J] records whether the preconditioner
    was omitted, the stored boundary conditions pass the style check for the
    stored style, and the constant-Jacobian hint starts false. *)
Theorem X6_constructed_problem_is_well_formed F0 u0 bcs0 J0 Jp0 fcp declared p :
  init F0 u0 bcs0 J0 Jp0 fcp declared = Ok p ->
  (exists f, F p = PyForm f /\ List.length (arguments f) = 1%nat) /\
  (exists j a0 a1, J p = PyForm j /\ arguments j = [a0; a1]) /\
  (Jp p = PyNone \/
   exists jp, Jp p = PyForm jp /\ List.length (arguments jp) = 2%nat) /\
  Jp_eq_J p = is_None (Jp p) /\
  u0 = PyFunction (u p) /\
  is_form_consistent (is_linear p) (bcs p) = Ok tt /\
  _constant_jacobian p = false.
Proof.
  intros H. apply init_ok_inv in H as (uf & J1 & -> & Hs & HJ & Hc & ->).
  cbn [F J Jp Jp_eq_J u is_linear bcs _constant_jacobian].
  apply check_pde_args_ok_inv in Hc as ((f & -> & Hf) & (j & -> & Hj) & HJp).
  split; [exists f; auto|]. split.
  { destruct (arguments j) as [|a0 [|a1 [|a2 rest]]] eqn:Ha; try discriminate Hj.
    exists j, a0, a1. rewrite Ha. auto. }
  auto.
Qed.

(** X7: a supplied Jacobian that is falsy (such as [0] or an empty list) is
    not used: a problem constructed from it holds the derivative of the
    residual with respect to the unknown instead of the supplied object. *)
Theorem X7_falsy_jacobian_is_replaced_by_derivative
    F0 u0 bcs0 J0 Jp0 fcp declared p :
  init F0 u0 bcs0 J0 Jp0 fcp declared = Ok p ->
  py_truthy J0 = false ->
  derivative F0 (u p) = Ok (J p) /\ J p <> J0.
Proof.
  intros H Hfalsy.
  apply init_ok_inv in H as (uf & J1 & -> & _ & HJ & Hc & ->). cbn [J u].
  unfold J_or_derivative in HJ. rewrite Hfalsy in HJ. split; [exact HJ|].
  intros ->. apply check_pde_args_ok_inv in Hc as (_ & (j & -> & _) & _).
  discriminate Hfalsy.
Qed.

(** X8: construction succeeds, storing its inputs, whenever the style check
    passes, the unknown is a [Function], the residual is a form with one
    argument, the supplied or derived Jacobian is a form with two and the
    preconditioner is [None] or a form with two. *)
Theorem X8_valid_inputs_construct F0 uf bcs0 J0 Jp0 fcp declared f j :
  is_form_consistent declared (_extract_bcs bcs0) = Ok tt ->
  F0 = PyForm f -> List.length (arguments f) = 1%nat ->
  J_or_derivative derivative F0 uf J0 = Ok (PyForm j) ->
  List.length (arguments j) = 2%nat ->
  Jp0 = PyNone \/
    (exists jp, Jp0 = PyForm jp /\ List.length (arguments jp) = 2%nat) ->
  init F0 (PyFunction uf) bcs0 J0 Jp0 fcp declared =
  Ok {| bcs := _extract_bcs bcs0; is_linear := declared; Jp_eq_J := is_None Jp0;
        u := uf; F := F0; Jp := Jp0; J := PyForm j;
        form_compiler_parameters := fcp; _constant_jacobian := false |}.
Proof.
  intros Hs -> Hf HJ Hj HJp.
  rewrite (init_checked _ _ _ _ _ _ _ _ _ Hs HJ).
  rewrite check_pde_args_ok by assumption. reflexivity.
Qed.

(** The coefficient enumeration of [solve] cannot fail on a constructed
    problem. *)
Lemma constructed_problem_enumerates F0 u0 bcs0 J0 Jp0 fcp declared p :
  init F0 u0 bcs0 J0 Jp0 fcp declared = Ok p ->
  exists cs, chain_coefficients [F p; J p; Jp p] = Ok cs.
Proof.
  intros H. apply init_ok_inv in H as (uf & J1 & -> & _ & _ & Hc & ->).
  cbn [F J Jp].
  apply check_pde_args_ok_inv in Hc
    as ((f & -> & _) & (j & -> & _) & [->|(jp & -> & _)]);
    eexists; reflexivity.
Qed.

End ConstructionMore.

Lemma X6_witness :
  NonlinearVariationalProblem_init Example.derive
    (PyForm Example.residual) (PyFunction Example.uf) None PyNone PyNone None false
  = Ok Example.problem /\
  (exists j a0 a1, J Example.problem = PyForm j /\ arguments j = [a0; a1]) /\
  Jp_eq_J Example.problem = true.
Proof.
  split; [reflexivity|].
  destruct (X6_constructed_problem_is_well_formed Example.derive
              (PyForm Example.residual) (PyFunction Example.uf) None PyNone PyNone
              None false Example.problem eq_refl) as (_ & HJ & _ & HJp & _).
  split; [exact HJ|exact HJp].
Defined.

Lemma X7_witness :
  NonlinearVariationalProblem_init Example.derive
    (PyForm Example.residual) (PyFunction Example.uf) None (PyOther "int" false)
    PyNone None false
  = Ok Example.problem /\
  Example.derive (PyForm Example.residual) Example.uf = Ok (J Example.problem) /\
  J Example.problem <> PyOther "int" false.
Proof.
  split; [reflexivity|].
  exact (X7_falsy_jacobian_is_replaced_by_derivative Example.derive
           (PyForm Example.residual) (PyFunction Example.uf) None
           (PyOther "int" false) PyNone None false Example.problem
           eq_refl eq_refl).
Defined.

Lemma X8_witness :
  NonlinearVariationalProblem_init Example.derive
    (PyForm Example.residual) (PyFunction Example.uf)
    (Some [BC_Dirichlet Example.pin]) PyNone (PyForm Example.bilinear) None false
  = Ok {| bcs := [BC_Dirichlet Example.pin]; is_linear := false; Jp_eq_J := false;
          u := Example.uf; F := PyForm Example.residual;
          Jp := PyForm Example.bilinear; J := PyForm Example.bilinear;
          form_compiler_parameters := None; _constant_jacobian := false |}.
Proof.
  refine (X8_valid_inputs_construct Example.derive (PyForm Example.residual)
            Example.uf (Some [BC_Dirichlet Example.pin]) PyNone
            (PyForm Example.bilinear) None false Example.residual Example.bilinear
            eq_refl eq_refl eq_refl eq_refl eq_refl _).
  right. exists Example.bilinear. split; reflexivity.
Defined.

(** * Further properties of [solve] *)

Section MoreRuns.

Context {Vec : Type}.
Variable engine_solve :
  SNES Vec -> list Scope -> (nat -> Vec) -> Vec -> (nat -> Vec) * Vec * result Z.
Variable engine_setVariableBounds : SNES Vec -> Vec -> Vec -> result unit.
Variable bc_apply : DirichletBC -> Vec -> Vec.

Local Abbreviation solve := (solve engine_solve engine_setVariableBounds bc_apply).
Local Abbreviation register_bounds := (register_bounds engine_setVariableBounds).

Ltac project :=
  cbn [_problem _ctx snes snes_dm dat entered _work _transfer_operators _setup
       with_dat with_snes with_work with_entered with_setup
       snes_with_function snes_with_jacobian snes_with_bounds snes_with_reason
       snes_function snes_jacobian snes_bounds snes_reason
       out_result out_world out_events fst snd].

Ltac project_in H :=
  cbn [_problem _ctx snes snes_dm dat entered _work _transfer_operators _setup
       with_dat with_snes with_work with_entered with_setup
       snes_with_function snes_with_jacobian snes_with_bounds snes_with_reason
       snes_function snes_jacobian snes_bounds snes_reason
       out_result out_world out_events fst snd] in H.

Ltac in_inv H :=
  repeat first
    [ apply in_app_or in H; destruct H as [H|H]
    | apply in_map_iff in H; destruct H as (? & H & ?); discriminate H
    | cbn [In] in H; destruct H as [H|H]; [try discriminate H|]
    | contradiction H ].

Ltac in_find :=
  cbn [In];
  first [ left; reflexivity
        | right; in_find
        | apply in_or_app; first [ left; in_find | right; in_find ] ].

(** The bounds step fails and leaves the world alone, or succeeds and at
    most replaces the engine's bounds. *)
Lemma register_bounds_world bounds (w : World Vec) :
  let ob := register_bounds bounds w in
  (exists e, out_result ob = Raise e /\ out_world ob = w /\ bounds <> None /\
             (out_events ob = [] \/
              exists lb ub, out_events ob = [EvSetVariableBounds lb ub])) \/
  (out_result ob = Ok tt /\ bounds = None /\ out_world ob = w /\ out_events ob = []) \/
  (out_result ob = Ok tt /\
   exists lb ub, out_world ob = with_snes (snes_with_bounds (lb, ub) (snes w)) w /\
                 out_events ob = [EvSetVariableBounds lb ub]).
Proof.
  cbv zeta. rewrite register_bounds_run.
  destruct bounds as [[lower upper]|]; [|right; left; auto].
  destruct (py_dat lower) as [il|e];
    [|left; exists e; repeat split; [discriminate|left; reflexivity]].
  destruct (py_dat upper) as [iu|e];
    [|left; exists e; repeat split; [discriminate|left; reflexivity]].
  destruct (engine_setVariableBounds _ _ _) as [[]|e].
  - right. right. split; [reflexivity|]. eexists _, _. split; reflexivity.
  - left. exists e. repeat split; [discriminate|]. right. eexists _, _. reflexivity.
Qed.

(** Case analysis of a run: the coefficient enumeration fails; the bounds
    step fails; or the engine is called, without or with bounds, and
    returns or raises. *)
Ltac run_cases bounds w :=
  rewrite (solve_run engine_solve engine_setVariableBounds bc_apply bounds w);
  cbv zeta;
  let Hcs := fresh "Hcs" in
  destruct (chain_coefficients _) as [?cs|?e] eqn:Hcs;
  [ let Hw := fresh "Hw" in
    pose proof (register_bounds_world bounds (prepared bc_apply w)) as Hw;
    cbv zeta in Hw;
    destruct (register_bounds bounds (prepared bc_apply w)) as [[?rb ?w3] ?evb];
    project_in Hw;
    destruct Hw as [(?e & -> & -> & ?Hsome & ?Hevb)
                   |[(-> & ?Hnone & -> & ->)|(-> & ?lb & ?ub & -> & ->)]];
    project;
    [ | destruct (engine_solve _ _ _ _) as [[?d1 ?x1] [?r|?e]] eqn:?He; project
      | destruct (engine_solve _ _ _ _) as [[?d1 ?x1] [?r|?e]] eqn:?He; project ]
  | ].

(** *** Scopes entered and left *)

Lemma entered_scopes_app (l1 l2 : list (Event Vec)) :
  entered_scopes (l1 ++ l2) = entered_scopes l1 ++ entered_scopes l2.
Proof. apply flat_map_app. Qed.

Lemma exited_scopes_app (l1 l2 : list (Event Vec)) :
  exited_scopes (l1 ++ l2) = exited_scopes l1 ++ exited_scopes l2.
Proof. apply flat_map_app. Qed.

Lemma entered_scopes_other (e : Event Vec) (l : list (Event Vec)) :
  match e with EvEnter _ => False | _ => True end ->
  entered_scopes (e :: l) = entered_scopes l.
Proof. destruct e; intros H; try reflexivity; destruct H. Qed.

Lemma exited_scopes_other (e : Event Vec) (l : list (Event Vec)) :
  match e with EvExit _ => False | _ => True end ->
  exited_scopes (e :: l) = exited_scopes l.
Proof. destruct e; intros H; try reflexivity; destruct H. Qed.

Lemma entered_scopes_enter (l : list Scope) :
  entered_scopes (map (EvEnter (Vec := Vec)) l) = l.
Proof. induction l as [|s l IH]; [reflexivity|]. cbn. f_equal. exact IH. Qed.

Lemma exited_scopes_exit (l : list Scope) :
  exited_scopes (map (EvExit (Vec := Vec)) l) = l.
Proof. induction l as [|s l IH]; [reflexivity|]. cbn. f_equal. exact IH. Qed.

Lemma entered_scopes_exit (l : list Scope) :
  entered_scopes (map (EvExit (Vec := Vec)) l) = [].
Proof. induction l; [reflexivity|exact IHl]. Qed.

Lemma exited_scopes_enter (l : list Scope) :
  exited_scopes (map (EvEnter (Vec := Vec)) l) = [].
Proof. induction l; [reflexivity|exact IHl]. Qed.

Lemma entered_scopes_apply (i : nat) (l : list DirichletBC) :
  entered_scopes (map (fun b => EvApply (Vec := Vec) b i) l) = [].
Proof. induction l; [reflexivity|exact IHl]. Qed.

Lemma exited_scopes_apply (i : nat) (l : list DirichletBC) :
  exited_scopes (map (fun b => EvApply (Vec := Vec) b i) l) = [].
Proof. induction l; [reflexivity|exact IHl]. Qed.

Ltac scopes :=
  repeat first
    [ rewrite entered_scopes_app | rewrite exited_scopes_app
    | rewrite entered_scopes_enter | rewrite exited_scopes_exit
    | rewrite entered_scopes_exit | rewrite exited_scopes_enter
    | rewrite entered_scopes_apply | rewrite exited_scopes_apply
    | rewrite entered_scopes_other by exact I
    | rewrite exited_scopes_other by exact I
    | rewrite app_nil_r
    | progress cbn [entered_scopes exited_scopes flat_map app] ].

Lemma prepared_entered (w : World Vec) : entered (prepared bc_apply w) = entered w.
Proof. rewrite prepared_eq. reflexivity. Qed.

(** X9: the contexts entered for a solve are all left again, in reverse
    order, whether [solve] returns or raises: the stack of entered contexts
    is afterwards what it was before the call. *)
Theorem X9_contexts_released_on_every_exit bounds (w : World Vec) :
  entered (out_world (solve bounds w)) = entered w /\
  exited_scopes (out_events (solve bounds w))
    = rev (entered_scopes (out_events (solve bounds w))).
Proof.
  run_cases bounds w.
  - split; [apply prepared_entered|].
    destruct Hevb as [->|(lb & ub & ->)]; scopes; reflexivity.
  - split; [apply prepared_entered|].
    destruct (r <? 0)%Z; scopes; reflexivity.
  - split; [apply prepared_entered|]. scopes. reflexivity.
  - split; [apply prepared_entered|].
    destruct (r <? 0)%Z; scopes; reflexivity.
  - split; [apply prepared_entered|]. scopes. reflexivity.
  - split; reflexivity.
Qed.

Lemma prepared_setup (w : World Vec) : _setup (prepared bc_apply w) = _setup w.
Proof. rewrite prepared_eq. reflexivity. Qed.

Lemma prepared_dat (w : World Vec) :
  dat (prepared bc_apply w) =
  dat_after bc_apply (dirichlet_bcs (_problem w)) (fn_id (u (_problem w))) (dat w).
Proof. rewrite prepared_eq. reflexivity. Qed.

Lemma prepared_bounds (w : World Vec) :
  snes_bounds (snes (prepared bc_apply w)) = snes_bounds (snes w).
Proof. rewrite prepared_eq. reflexivity. Qed.

Lemma prepared_dm (w : World Vec) :
  snes_dm (snes (prepared bc_apply w)) = snes_dm (snes w) /\
  _problem (prepared bc_apply w) = _problem w.
Proof. rewrite prepared_eq. split; reflexivity. Qed.

(** X10: when the engine's solve raises, [solve] raises the same exception
    after leaving the contexts; the result is not copied back from the work
    vector by [solve], the [_setup] flag keeps its value, and neither the
    convergence check nor the garbage cleanup is called. *)
Theorem X10_engine_exception_propagates bounds (w : World Vec) x0 x1 e :
  In (EvSnesSolve x0 x1 (Raise e)) (out_events (solve bounds w)) ->
  let o := solve bounds w in
  out_result o = Raise e /\
  _setup (out_world o) = _setup w /\
  _work (out_world o) = x1 /\
  ~ In EvCheckConvergence (out_events o) /\
  (forall c, ~ In (EvGarbageCleanup c) (out_events o)).
Proof.
  cbv zeta. run_cases bounds w; intros H.
  - destruct Hevb as [->|(lb & ub & ->)]; in_inv H.
  - destruct (r <? 0)%Z; in_inv H.
  - assert (E : EvSnesSolve (dat (prepared bc_apply w) (fn_id (u (_problem w)))) x2 (Raise e0)
                = EvSnesSolve x0 x1 (Raise e)) by (in_inv H; exact H).
    injection E as <- <- <-. clear H.
    split; [reflexivity|]. split; [apply prepared_setup|]. split; [reflexivity|].
    split; [intros H; in_inv H|]. intros c H; in_inv H.
  - destruct (r <? 0)%Z; in_inv H.
  - assert (E : EvSnesSolve (dat (prepared bc_apply w) (fn_id (u (_problem w)))) x2 (Raise e0)
                = EvSnesSolve x0 x1 (Raise e)) by (in_inv H; exact H).
    injection E as <- <- <-. clear H.
    split; [reflexivity|]. split; [apply prepared_setup|]. split; [reflexivity|].
    split; [intros H; in_inv H|]. intros c H; in_inv H.
  - in_inv H.
Qed.

(** X11: [solve] returns normally exactly when the engine's solve completed
    with a reason that is not negative. *)
Theorem X11_solve_returns_iff_engine_converged bounds (w : World Vec) :
  out_result (solve bounds w) = Ok tt <->
  exists x0 x1 r,
    In (EvSnesSolve x0 x1 (Ok r)) (out_events (solve bounds w)) /\ (0 <= r)%Z.
Proof.
  split.
  - run_cases bounds w; unfold check_snes_convergence; project;
      try discriminate.
    + destruct (r <? 0)%Z eqn:Hr; [discriminate|]. intros _.
      eexists _, _, r. split; [in_find|]. apply Z.ltb_ge, Hr.
    + destruct (r <? 0)%Z eqn:Hr; [discriminate|]. intros _.
      eexists _, _, r. split; [in_find|]. apply Z.ltb_ge, Hr.
  - intros (x0 & x1 & r & H & Hr).
    destruct (solve_completed engine_solve engine_setVariableBounds bc_apply
                bounds w x0 x1 r H) as (_ & Hres & _).
    apply Z.ltb_ge in Hr. rewrite Hr in Hres. exact Hres.
Qed.

(** X12: whenever the engine is called, every elementary Dirichlet condition
    of the problem has been applied to the unknown before, once and in
    order, right after the rebinding; the work vector the engine starts from
    holds the unknown as these conditions left it. *)
Theorem X12_conditions_applied_before_engine_runs bounds (w : World Vec) x0 x1 r :
  In (EvSnesSolve x0 x1 r) (out_events (solve bounds w)) ->
  let p := _problem w in
  let uid := fn_id (u p) in
  x0 = dat_after bc_apply (dirichlet_bcs p) uid (dat w) uid /\
  exists post,
    out_events (solve bounds w)
      = EvSetFunction (_ctx w) :: EvSetJacobian (_ctx w)
          :: map (fun b => EvApply b uid) (dirichlet_bcs p) ++ post /\
    (forall d i, ~ In (EvApply d i) post) /\
    In (EvSnesSolve x0 x1 r) post.
Proof.
  cbv zeta. run_cases bounds w; intros H.
  - destruct Hevb as [->|(lb & ub & ->)]; in_inv H.
  - assert (E : EvSnesSolve (dat (prepared bc_apply w) (fn_id (u (_problem w)))) x2 (Ok r0)
                = EvSnesSolve x0 x1 r)
      by (in_inv H; try exact H; destruct (r0 <? 0)%Z; in_inv H).
    injection E as <- <- <-. clear H. split; [rewrite prepared_dat; reflexivity|].
    eexists. split; [rewrite app_nil_r; cbn; reflexivity|]. split.
    + intros d i H. destruct (r0 <? 0)%Z; in_inv H.
    + in_find.
  - assert (E : EvSnesSolve (dat (prepared bc_apply w) (fn_id (u (_problem w)))) x2 (Raise e)
                = EvSnesSolve x0 x1 r) by (in_inv H; exact H).
    injection E as <- <- <-. clear H. split; [rewrite prepared_dat; reflexivity|].
    eexists. split; [rewrite app_nil_r; cbn; reflexivity|]. split.
    + intros d i H. in_inv H.
    + in_find.
  - assert (E : EvSnesSolve (dat (prepared bc_apply w) (fn_id (u (_problem w)))) x2 (Ok r0)
                = EvSnesSolve x0 x1 r)
      by (in_inv H; try exact H; destruct (r0 <? 0)%Z; in_inv H).
    injection E as <- <- <-. clear H. split; [rewrite prepared_dat; reflexivity|].
    match goal with
    | |- exists post, (?a :: ?b :: ?l1 ++ ?l2) ++ ?rest = _ /\ _ =>
        exists (l2 ++ rest)
    end.
    split; [cbn; rewrite <- app_assoc; reflexivity|]. split.
    + intros d i H. destruct (r0 <? 0)%Z; in_inv H.
    + in_find.
  - assert (E : EvSnesSolve (dat (prepared bc_apply w) (fn_id (u (_problem w)))) x2 (Raise e)
                = EvSnesSolve x0 x1 r) by (in_inv H; exact H).
    injection E as <- <- <-. clear H. split; [rewrite prepared_dat; reflexivity|].
    match goal with
    | |- exists post, (?a :: ?b :: ?l1 ++ ?l2) ++ ?rest = _ /\ _ =>
        exists (l2 ++ rest)
    end.
    split; [cbn; rewrite <- app_assoc; reflexivity|]. split.
    + intros d i H. in_inv H.
    + in_find.
  - in_inv H.
Qed.

(** X13: a solve without bounds never calls [setVariableBounds] and leaves
    the bounds registered on the engine as they were, so bounds given to an
    earlier solve stay in force. *)
Theorem X13_solve_without_bounds_keeps_engine_bounds (w : World Vec) :
  snes_bounds (snes (out_world (solve None w))) = snes_bounds (snes w) /\
  forall lb ub, ~ In (EvSetVariableBounds lb ub) (out_events (solve None w)).
Proof.
  rewrite (solve_run engine_solve engine_setVariableBounds bc_apply). cbv zeta.
  destruct (chain_coefficients _) as [cs|e].
  2:{ split; [reflexivity|]. intros lb ub H. in_inv H. }
  rewrite register_bounds_run. project.
  destruct (engine_solve _ _ _ _) as [[d1 x1] [r|e]]; project.
  - split; [apply prepared_bounds|]. intros lb ub H. destruct (r <? 0)%Z; in_inv H.
  - split; [apply prepared_bounds|]. intros lb ub H. in_inv H.
Qed.

(** X14: when a supplied bound has no [.dat], [solve] fails only after it
    has rebound the callbacks and applied the boundary conditions: the
    unknown keeps the values the conditions gave it. *)
Theorem X14_invalid_bounds_fail_after_conditions_applied
    (w : World Vec) (lower upper : pyobj) (cs : list Coefficient) :
  chain_coefficients [F (_problem w); J (_problem w); Jp (_problem w)] = Ok cs ->
  (forall i, py_dat lower <> Ok i) \/ (forall i, py_dat upper <> Ok i) ->
  let o := solve (Some (lower, upper)) w in
  let p := _problem w in
  let uid := fn_id (u p) in
  out_world o = prepared bc_apply w /\
  dat (out_world o) uid = dat_after bc_apply (dirichlet_bcs p) uid (dat w) uid /\
  out_events o
    = EvSetFunction (_ctx w) :: EvSetJacobian (_ctx w)
        :: map (fun b => EvApply b uid) (dirichlet_bcs p).
Proof.
  intros Hcs Hbad. cbv zeta.
  rewrite (solve_run engine_solve engine_setVariableBounds bc_apply). cbv zeta.
  rewrite Hcs, register_bounds_run.
  destruct (py_dat lower) as [il|e] eqn:Hl.
  - destruct (py_dat upper) as [iu|e] eqn:Hu.
    + destruct Hbad as [H|H]; [destruct (H il eq_refl)|destruct (H iu eq_refl)].
    + project. rewrite prepared_dat, app_nil_r. auto.
  - project. rewrite prepared_dat, app_nil_r. auto.
Qed.

(** X15: the engine of a newly constructed solver is on the DM of the
    unknown's function space, and [solve] keeps both the engine's DM and the
    solver's problem, so the solution DM read by [solve] is always that of
    the unknown. *)
Theorem X15_engine_stays_on_the_unknowns_dm :
  (forall p ctx layout_vec (heap : nat -> Vec),
     snes_dm (snes (NonlinearVariationalSolver_init p ctx layout_vec heap))
     = fs_dm (function_space (u p))) /\
  (forall bounds (w : World Vec),
     snes_dm (snes w) = fs_dm (function_space (u (_problem w))) ->
     snes_dm (snes (out_world (solve bounds w)))
     = fs_dm (function_space (u (_problem (out_world (solve bounds w)))))).
Proof.
  split; [reflexivity|]. intros bounds w H.
  destruct (solve_preserves_dm engine_solve engine_setVariableBounds bc_apply
              bounds w) as [Hd Hp].
  rewrite Hd, Hp. exact H.
Qed.

(** The context managers entered when the engine is called. *)
Lemma solve_entered_scopes bounds (w : World Vec) x0 x1 r :
  In (EvSnesSolve x0 x1 r) (out_events (solve bounds w)) ->
  exists cs,
    chain_coefficients [F (_problem w); J (_problem w); Jp (_problem w)] = Ok cs /\
    entered_scopes (out_events (solve bounds w))
      = staged w (problem_dms cs (snes_dm (snes w))).
Proof.
  run_cases bounds w; intros H.
  - destruct Hevb as [->|(lb & ub & ->)]; in_inv H.
  - exists cs. split; [reflexivity|]. destruct (r0 <? 0)%Z; scopes; reflexivity.
  - exists cs. split; [reflexivity|]. scopes. reflexivity.
  - exists cs. split; [reflexivity|]. destruct (r0 <? 0)%Z; scopes; reflexivity.
  - exists cs. split; [reflexivity|]. scopes. reflexivity.
  - in_inv H.
Qed.

(** X16: when the engine is called, the contexts were entered in this order:
    the options scope first, then one hook scope per attached discretization
    carrying this solver's context, then the transfer operators. *)
Theorem X16_staging_order bounds (w : World Vec) x0 x1 r :
  In (EvSnesSolve x0 x1 r) (out_events (solve bounds w)) ->
  entered_scopes (out_events (solve bounds w))
  = inserted_options
      :: map (fun d => add_hooks d (_ctx w)) (attached (out_events (solve bounds w)))
      ++ map transfer_operator (_transfer_operators w).
Proof.
  intros H.
  destruct (solve_entered_scopes bounds w x0 x1 r H) as (cs & Hcs & ->).
  destruct (solve_attached engine_solve engine_setVariableBounds bc_apply bounds w)
    as [Hnil|(cs' & Hcs' & ->)].
  - exfalso.
    exact (solve_engine_called_attached engine_solve engine_setVariableBounds
             bc_apply bounds w x0 x1 r H Hnil).
  - rewrite Hcs in Hcs'. injection Hcs' as <-. reflexivity.
Qed.

Lemma prepared_with_work (x : Vec) (w : World Vec) :
  prepared bc_apply (with_work x w) = with_work x (prepared bc_apply w).
Proof. rewrite !prepared_eq. reflexivity. Qed.

(** X17: what the work vector held before the call has no influence on a
    solve: the result, the calls made and the field data left behind are
    the same for any earlier contents. *)
Theorem X17_stale_work_vector_is_irrelevant bounds (w : World Vec) (x : Vec) :
  out_result (solve bounds (with_work x w)) = out_result (solve bounds w) /\
  out_events (solve bounds (with_work x w)) = out_events (solve bounds w) /\
  dat (out_world (solve bounds (with_work x w))) = dat (out_world (solve bounds w)).
Proof.
  rewrite !(solve_run engine_solve engine_setVariableBounds bc_apply). cbv zeta.
  project. unfold staged. project.
  destruct (chain_coefficients _) as [cs|e]; [|auto].
  rewrite prepared_with_work, !register_bounds_run.
  destruct bounds as [[lower upper]|].
  - destruct (py_dat lower) as [il|e]; [|auto].
    destruct (py_dat upper) as [iu|e]; [|auto].
    project.
    destruct (engine_setVariableBounds _ _ _) as [[]|e]; [|auto].
    project. destruct (engine_solve _ _ _ _) as [[d1 x1] [r|e]]; auto.
  - project. destruct (engine_solve _ _ _ _) as [[d1 x1] [r|e]]; auto.
Qed.

End MoreRuns.

Section ConstructedAndSolved.

Variable derivative : pyobj -> Function -> result pyobj.

(** X18: on a problem that was constructed, the coefficient enumeration at
    the start of [solve] does not fail: F and J are forms, Jp is a form or
    is skipped as [None], and the coefficients chained are those of F, then
    of J, then of Jp. *)
Theorem X18_constructed_problem_enumerates_coefficients
    F0 u0 bcs0 J0 Jp0 fcp declared p :
  NonlinearVariationalProblem_init derivative F0 u0 bcs0 J0 Jp0 fcp declared = Ok p ->
  exists f j,
    F p = PyForm f /\ J p = PyForm j /\
    chain_coefficients [F p; J p; Jp p]
    = Ok (coefficients f ++ coefficients j ++
          match Jp p with PyForm jp => coefficients jp | _ => [] end).
Proof.
  intros H. apply init_ok_inv in H as (uf & J1 & -> & _ & _ & Hc & ->).
  cbn [F J Jp].
  apply check_pde_args_ok_inv in Hc
    as ((f & -> & _) & (j & -> & _) & [->|(jp & -> & _)]);
    exists f, j; split; try reflexivity; split; try reflexivity;
    cbn; rewrite ?app_nil_r; reflexivity.
Qed.

End ConstructedAndSolved.

(** * The further properties on the concrete solvers *)

Lemma X10_witness :
  let o := solve Pinned.failing_engine Example.accepts_bounds Example.pin_apply None
             (Example.solver 1) in
  In (EvSnesSolve 1%Z 1%Z (Raise (ExternalError 76))) (out_events o) /\
  out_result o = Raise (ExternalError 76) /\
  _setup (out_world o) = false /\
  ~ In EvCheckConvergence (out_events o).
Proof.
  cbv zeta.
  assert (H : In (EvSnesSolve 1%Z 1%Z (Raise (ExternalError 76)))
                (out_events (solve Pinned.failing_engine Example.accepts_bounds
                               Example.pin_apply None (Example.solver 1))))
    by in_now.
  split; [exact H|].
  destruct (X10_engine_exception_propagates Pinned.failing_engine
              Example.accepts_bounds Example.pin_apply None (Example.solver 1)
              1%Z 1%Z (ExternalError 76) H) as (Hr & Hs & _ & Hc & _).
  split; [exact Hr|]. split; [exact Hs|exact Hc].
Defined.

Lemma X12_witness :
  let o := solve Example.engine Example.accepts_bounds Example.pin_apply None
             (Pinned.solver (-1)) in
  In (EvSnesSolve 5%Z 2%Z (Ok 3%Z)) (out_events o) /\
  5%Z = dat_after Example.pin_apply [Example.pin] 0 (Example.heap (-1)) 0%nat /\
  exists post,
    out_events o
      = EvSetFunction 0 :: EvSetJacobian 0 :: [EvApply Example.pin 0] ++ post /\
    (forall d i, ~ In (EvApply d i) post) /\
    In (EvSnesSolve 5%Z 2%Z (Ok 3%Z)) post.
Proof.
  cbv zeta.
  assert (H : In (EvSnesSolve 5%Z 2%Z (Ok 3%Z))
                (out_events (solve Example.engine Example.accepts_bounds
                               Example.pin_apply None (Pinned.solver (-1)))))
    by in_now.
  split; [exact H|].
  exact (X12_conditions_applied_before_engine_runs Example.engine
           Example.accepts_bounds Example.pin_apply None (Pinned.solver (-1))
           5%Z 2%Z (Ok 3%Z) H).
Defined.

Lemma X14_witness :
  let o := solve Example.engine Example.accepts_bounds Example.pin_apply
             (Some (PyFunction Example.lowf, PyOther "float" true))
             (Pinned.solver (-1)) in
  out_result o = Raise (AttributeError "'float' object has no attribute 'dat'") /\
  dat (Pinned.solver (-1)) 0%nat = (-1)%Z /\
  dat (out_world o) 0%nat = 5%Z.
Proof.
  cbv zeta. split; [reflexivity|]. split; [reflexivity|].
  refine (eq_trans (proj1 (proj2
    (X14_invalid_bounds_fail_after_conditions_applied Example.engine
       Example.accepts_bounds Example.pin_apply (Pinned.solver (-1))
       (PyFunction Example.lowf) (PyOther "float" true)
       [Example.c_u; Example.c_k; Example.c_u; Example.c_k] eq_refl _))) eq_refl).
  right. intros i. discriminate.
Defined.

Lemma X15_witness :
  let o := solve Example.engine Example.accepts_bounds Example.pin_apply None
             (Example.solver 1) in
  snes_dm (snes (Example.solver 1)) = 7%nat /\
  snes_dm (snes (out_world o)) = 7%nat.
Proof.
  cbv zeta. split; [reflexivity|].
  exact (proj2 (X15_engine_stays_on_the_unknowns_dm Example.engine
                  Example.accepts_bounds Example.pin_apply)
               None (Example.solver 1) eq_refl).
Defined.

Lemma X16_witness :
  let o := solve Example.engine Example.accepts_bounds Example.pin_apply None
             (Example.solver 1) in
  In (EvSnesSolve 1%Z 2%Z (Ok 3%Z)) (out_events o) /\
  entered_scopes (out_events o)
  = [inserted_options; add_hooks 8 0; add_hooks 7 0].
Proof.
  cbv zeta.
  assert (H : In (EvSnesSolve 1%Z 2%Z (Ok 3%Z))
                (out_events (solve Example.engine Example.accepts_bounds
                               Example.pin_apply None (Example.solver 1))))
    by in_now.
  split; [exact H|].
  exact (X16_staging_order Example.engine Example.accepts_bounds Example.pin_apply
           None (Example.solver 1) 1%Z 2%Z (Ok 3%Z) H).
Defined.

Lemma X18_witness :
  NonlinearVariationalProblem_init Example.derive
    (PyForm Shared.residual) (PyFunction Example.uf) None PyNone PyNone None false
  = Ok Shared.problem /\
  exists f j,
    F Shared.problem = PyForm f /\ J Shared.problem = PyForm j /\
    chain_coefficients [F Shared.problem; J Shared.problem; Jp Shared.problem]
    = Ok (coefficients f ++ coefficients j ++
          match Jp Shared.problem with PyForm jp => coefficients jp | _ => [] end).
Proof.
  split; [reflexivity|].
  exact (X18_constructed_problem_enumerates_coefficients Example.derive
           (PyForm Shared.residual) (PyFunction Example.uf) None PyNone PyNone
           None false Shared.problem eq_refl).
Defined.
